(** * git-dirupdate: the orchestration core, embedded and verified

    The repository holds two generations of the [cmd] package:

    - the current [root.go], a self-contained orchestrator built from the
      free functions [stashIfDirty], [fetchBranchesToUpdate],
      [updateBranch] and [updateRepository], reporting through a spinner;
    - the earlier [root.go] together with [repository.go], where the same
      work goes through the methods of the [repository] struct.

    Both are embedded here, each in a module of its own ([Current] and
    [Legacy]), over one model of the outside world: every subprocess,
    spinner and prompt call is answered by a [Host] and logged as an
    [Event], so that a run of the program is a value and the list of what
    it did. *)

From Stdlib Require Import String Ascii List Bool Arith Lia Permutation.
Import ListNotations.
Local Open Scope string_scope.
Local Open Scope list_scope.

(** ** Go's [strings] package, as far as the program uses it

    A Go string is a byte sequence; [string] is the same thing with
    [ascii] for the byte. *)
Module GoStrings.

Definition newline : ascii := "010"%char.
Definition tab : ascii := "009"%char.

(** [strings.HasPrefix(s, prefix)] *)
Fixpoint HasPrefix (s prefix : string) {struct prefix} : bool :=
  match prefix with
  | EmptyString => true
  | String p prefix' =>
      match s with
      | EmptyString => false
      | String c s' => Ascii.eqb c p && HasPrefix s' prefix'
      end
  end.

(** [strings.Contains(s, substr)] *)
Fixpoint Contains (s substr : string) : bool :=
  HasPrefix s substr ||
  match s with
  | EmptyString => false
  | String _ s' => Contains s' substr
  end.

(** [strings.HasSuffix(s, suffix)]:
    [len(s) >= len(suffix) && s[len(s)-len(suffix):] == suffix] *)
Definition HasSuffix (s suffix : string) : bool :=
  Nat.leb (String.length suffix) (String.length s) &&
  (substring (String.length s - String.length suffix)
             (String.length suffix) s =? suffix).

(** [strings.TrimSuffix(s, suffix)] *)
Definition TrimSuffix (s suffix : string) : string :=
  if HasSuffix s suffix
  then substring 0 (String.length s - String.length suffix) s
  else s.

(** [strings.Split(s, sep)] for a separator of one byte, the only kind
    the program passes (["\n"]).  As in Go, the result is never empty:
    splitting the empty string gives one empty field. *)
Fixpoint Split (s : string) (sep : ascii) : list string :=
  match s with
  | EmptyString => [EmptyString]
  | String c s' =>
      if Ascii.eqb c sep then EmptyString :: Split s' sep
      else match Split s' sep with
           | [] => [String c EmptyString]
           | field :: fields => String c field :: fields
           end
  end.

(** The text a subprocess prints when it writes the given lines, each
    ended by a newline. *)
Fixpoint unlines (lines : list string) : string :=
  match lines with
  | [] => EmptyString
  | l :: rest => l ++ String newline (unlines rest)
  end.

End GoStrings.
Import GoStrings.

(** ** Errors

    The two sentinel values of [root.go], and the errors that come back
    from outside the program (a subprocess that cannot start or exits
    non-zero, the spinner, the prompt, the user database).  The last kind
    carries whatever the host reported; it is never one of the sentinels. *)
Inductive error : Type :=
| errStashNotAllowed
| errNoBranch
| HostError (code : nat).

Definition error_eqb (a b : error) : bool :=
  match a, b with
  | errStashNotAllowed, errStashNotAllowed => true
  | errNoBranch, errNoBranch => true
  | HostError m, HostError n => Nat.eqb m n
  | _, _ => false
  end.

(** [errors.Is(err, target)]: none of the errors here wraps another, so
    the chain that [errors.Is] walks has one element. *)
Definition errors_Is (err target : error) : bool := error_eqb err target.

(** A Go [(T, error)] result where exactly one side is meaningful. *)
Inductive result (A : Type) : Type :=
| Ok (a : A)
| Err (e : error).
Arguments Ok {A} a.
Arguments Err {A} e.

(** ** The outside world *)

(** [exec.Command(name, args...)] with its [Dir] field set. *)
Record Cmd : Type := mkCmd {
  cmdName : string;
  cmdArgs : list string;
  cmdDir : string
}.

Definition gitCmd (dir : string) (args : list string) : Cmd :=
  mkCmd "git" args dir.

(** Names for the git invocations the program makes. *)
Definition statusCmd (repo : string) : Cmd := gitCmd repo ["status"; "--porcelain"].
Definition stashCmd (repo : string) : Cmd := gitCmd repo ["stash"].
Definition fetchCmd (repo : string) : Cmd := gitCmd repo ["fetch"; "--all"].
Definition listCmd (repo : string) : Cmd :=
  gitCmd repo ["branch"; "-l"; "--format=%(refname:short)"].
Definition plainListCmd (repo : string) : Cmd := gitCmd repo ["branch"; "-l"].
Definition checkoutCmd (repo branch : string) : Cmd :=
  gitCmd repo ["checkout"; branch].
Definition pullCmd (repo : string) : Cmd := gitCmd repo ["pull"].

Definition Cmd_eqb (a b : Cmd) : bool :=
  (cmdName a =? cmdName b) &&
  (if list_eq_dec string_dec (cmdArgs a) (cmdArgs b) then true else false) &&
  (cmdDir a =? cmdDir b).

(** Everything the program does that can be seen from outside, in the
    order it does it. *)
Inductive Event : Type :=
| Exec (c : Cmd)                        (* a subprocess was run *)
| UserCurrent                           (* user.Current() *)
| SpinnerStart (text : string)          (* pterm.DefaultSpinner.Start(text) *)
| SpinnerFound (n : nat)                (* spinner.Success("Found %d repositories", n) *)
| ConfirmShow (n : nat)                 (* the "Are you sure ... %d repositories?" prompt *)
| VizInfo (prefixText : string)         (* viz.Info() under the given prefix *)
| VizFail                               (* viz.Fail() *)
| VizUpdateText (branch repository : string)
    (* viz.UpdateText of "(%s): %s" with branch and repository *)
| VizWarning (repository : string) (succeeded total : nat) (failed : list string)
    (* viz.Warning of "%s: [%d/%d] (%s)" with these values, the names
       joined by ", " *)
| VizSuccess (repository : string) (succeeded total : nat)
    (* viz.Success of "%s: [%d/%d]" with these values *)
| Println (line : string)
| Printf (format : string) (args : list (string + nat)).

(** The host answers every call that leaves the program.  Its state
    [World] is threaded through the run, so an answer may depend on
    everything done before (a checkout changes what the next pull does). *)
Class Host : Type := mkHost {
  World : Type;
  (* stdout of the subprocess and how it ended *)
  hostExec : Cmd -> World -> (string * option nat) * World;
  (* home directory of the invoking user *)
  hostUserCurrent : World -> (string * option nat) * World;
  hostSpinnerStart : string -> World -> option nat * World;
  hostConfirm : nat -> World -> (bool * option nat) * World;
  (* filepath.Join, a pure function of the platform *)
  hostJoin : string -> string -> string
}.

(** ** Programs: a state monad over the world that also writes the log *)
Section Monad.
Context {H : Host}.

Definition M (A : Type) : Type := World -> A * list Event * World.

Definition ret {A} (a : A) : M A := fun w => (a, [], w).

Definition bind {A B} (m : M A) (k : A -> M B) : M B :=
  fun w =>
    let '(a, t1, w1) := m w in
    let '(b, t2, w2) := k a w1 in
    (b, t1 ++ t2, w2).

Definition emit (e : Event) : M unit := fun w => (tt, [e], w).

Definition liftErr (e : option nat) : option error := option_map HostError e.

(** [cmd.Output()] *)
Definition Output (c : Cmd) : M (string * option error) :=
  fun w =>
    let '((out, err), w') := hostExec c w in
    ((out, liftErr err), [Exec c], w').

(** [cmd.Run()] *)
Definition Run (c : Cmd) : M (option error) :=
  bind (Output c) (fun r => ret (snd r)).

Definition userCurrent : M (string * option error) :=
  fun w =>
    let '((home, err), w') := hostUserCurrent w in
    ((home, liftErr err), [UserCurrent], w').

Definition spinnerStart (text : string) : M (option error) :=
  fun w =>
    let '(err, w') := hostSpinnerStart text w in
    (liftErr err, [SpinnerStart text], w').

Definition confirmShow (n : nat) : M (bool * option error) :=
  fun w =>
    let '((ok, err), w') := hostConfirm n w in
    ((ok, liftErr err), [ConfirmShow n], w').

(** The three observations of a finished run. *)
Definition value {A} (r : A * list Event * World) : A := fst (fst r).
Definition trace {A} (r : A * list Event * World) : list Event := snd (fst r).
Definition after {A} (r : A * list Event * World) : World := snd r.

End Monad.

Declare Scope prog_scope.
Delimit Scope prog_scope with prog.
Notation "x <- m ;; k" := (bind m (fun x => k))
  (at level 61, m at next level, right associativity) : prog_scope.
Notation "' pat <- m ;; k" := (bind m (fun x => match x with pat => k end))
  (at level 61, pat pattern, m at next level, right associativity) : prog_scope.
Notation "m ;;; k" := (bind m (fun _ => k))
  (at level 61, right associativity) : prog_scope.
Local Open Scope prog_scope.

(** ** Configuration

    The package-level variables bound to the command-line flags; set once
    by the flag parser before [RunE] runs, only read afterwards. *)
Record Config : Type := mkConfig {
  pathPrefix : string;
  requestedBranches : list string;
  allBranches : bool;
  stashChanges : bool
}.

(** The flag defaults of [newRootCmd], for a given [GIT_DIRCLONE_ROOT_DIR]. *)
Definition defaultConfig (rootEnv : string) : Config :=
  mkConfig rootEnv ["main"; "master"] false false.

(** [expandPathWithTilde] and the collection loop of [findRepositories]
    are the same text in both generations of [root.go]. *)
Section Discovery.
Context {H : Host}.

Definition expandPathWithTilde (rootDir : string) : M (result string) :=
  '(dir, err) <- userCurrent ;;
  match err with
  | Some e => ret (Err e)
  | None =>
      if rootDir =? "~" then ret (Ok dir)
      else if HasPrefix rootDir "~/"
           then ret (Ok (hostJoin dir (substring 2 (String.length rootDir - 2) rootDir)))
           else ret (Ok rootDir)
  end.

Definition findCmd (rootDir : string) : Cmd :=
  mkCmd "find" ["-Ls"; TrimSuffix rootDir "/"; "-type"; "d"; "-name"; ".git"] "".

(** The loop over the lines that [find] printed. *)
Definition collectRepositories (found : string) : list string :=
  fold_left
    (fun repositories path =>
       if negb (HasSuffix path ".git") then repositories
       else repositories ++ [TrimSuffix path "/.git"])
    (Split found newline) [].

End Discovery.

(** ** The current [root.go] *)
Module Current.
Section Program.
Context {H : Host}.
Variable cfg : Config.

Definition warnThreshold : nat := 10.

Definition findRepositories (rootDir : string) : M (result (list string)) :=
  let rootDir := if rootDir =? "" then "." else rootDir in
  '(found, err) <- Output (findCmd rootDir) ;;
  match err with
  | Some e => ret (Err e)
  | None =>
      let repositories := collectRepositories found in
      if Nat.eqb (length repositories) 0
      then emit (Printf "No repositories found in %s\n" [inl rootDir]) ;;; ret (Ok [])
      else ret (Ok repositories)
  end.

Definition stashIfDirty (repo : string) : M (option error) :=
  '(changes, err) <- Output (gitCmd repo ["status"; "--porcelain"]) ;;
  match err with
  | Some e => ret (Some e)
  | None =>
      if Nat.eqb (String.length changes) 0 then ret None
      else if negb (stashChanges cfg) then ret (Some errStashNotAllowed)
      else Run (gitCmd repo ["stash"])
  end.

(** The condition under which the listing loop skips a line. *)
Definition skipped (branch : string) : bool :=
  (branch =? "") ||
  HasPrefix branch "refs/" ||
  HasPrefix branch "heads/" ||
  HasPrefix branch "origin/" ||
  Contains branch " ".

(** The inner loop over [requestedBranches]: one [append] for every
    element equal to [branch]. *)
Definition appendRequested (branchesList : list string) (branch : string)
  : list string :=
  fold_left
    (fun branchesList activeBranch =>
       if branch =? activeBranch then branchesList ++ [branch]
       else branchesList)
    (requestedBranches cfg) branchesList.

(** The loop over the lines of the branch listing. *)
Definition collectBranches (branches : string) : list string :=
  fold_left
    (fun branchesList branch =>
       if skipped branch then branchesList
       else if negb (allBranches cfg)
            then appendRequested branchesList branch
            else branchesList ++ [branch])
    (Split branches newline) [].

(** Two ways to say what the loops add, used to describe them: what one
    pass of the inner loop adds for [branch], and what the listing loop
    adds for one line. *)
Definition copies (branch : string) : list string :=
  repeat branch (count_occ string_dec (requestedBranches cfg) branch).

Definition contribution (branch : string) : list string :=
  if skipped branch then []
  else if negb (allBranches cfg) then copies branch else [branch].

(** The lines of a listing that get past the [continue]: the filtered
    local-branch list. *)
Definition filtered (branches : string) : list string :=
  filter (fun branch => negb (skipped branch)) (Split branches newline).

Definition fetchBranchesToUpdate (repo : string) : M (result (list string)) :=
  err <- Run (gitCmd repo ["fetch"; "--all"]) ;;
  match err with
  | Some e => ret (Err e)
  | None =>
      '(branches, err) <-
        Output (gitCmd repo ["branch"; "-l"; "--format=%(refname:short)"]) ;;
      match err with
      | Some e => ret (Err e)
      | None =>
          let branchesList := collectBranches branches in
          if Nat.eqb (length branchesList) 0 then ret (Err errNoBranch)
          else ret (Ok branchesList)
      end
  end.

Definition updateBranch (repo branch : string) : M (option error) :=
  err <- Run (gitCmd repo ["checkout"; branch]) ;;
  match err with
  | Some e => ret (Some e)
  | None => Run (gitCmd repo ["pull"])
  end.

(** What the calls of [updateBranch] return when they are made one
    after the other for [branches], starting in the world [w]. *)
Fixpoint branchResults (repo : string) (branches : list string) (w : World)
  : list (option error) :=
  match branches with
  | [] => []
  | branch :: rest =>
      let r := updateBranch repo branch w in
      value r :: branchResults repo rest (after r)
  end.

(** The loop of [updateRepository] over [activeBranches]; the
    accumulator is [failedUpdates]. *)
Fixpoint updateBranches (repository : string) (activeBranches : list string)
         (failedUpdates : list string) : M (list string) :=
  match activeBranches with
  | [] => ret failedUpdates
  | branch :: rest =>
      emit (VizUpdateText branch repository) ;;;
      err <- updateBranch repository branch ;;
      match err with
      | Some _ => updateBranches repository rest (failedUpdates ++ [branch])
      | None => updateBranches repository rest failedUpdates
      end
  end.

(** The three-way report that ends [updateRepository]. *)
Definition report (repository : string) (activeBranches failedUpdates : list string)
  : M unit :=
  if Nat.eqb (length failedUpdates) (length activeBranches) then emit VizFail
  else if Nat.ltb 0 (length failedUpdates)
       then emit (VizWarning repository
                    (length activeBranches - length failedUpdates)
                    (length activeBranches) failedUpdates)
       else emit (VizSuccess repository
                    (length activeBranches) (length activeBranches)).

Definition updateRepository (repository : string) : M (option error) :=
  err <- spinnerStart repository ;;
  match err with
  | Some e => ret (Some e)
  | None =>
      err <- stashIfDirty repository ;;
      match err with
      | Some e =>
          (if errors_Is e errStashNotAllowed
           then emit (VizInfo "SKIPPED") else emit VizFail) ;;;
          ret (Some e)
      | None =>
          r <- fetchBranchesToUpdate repository ;;
          match r with
          | Err e =>
              (if errors_Is e errNoBranch
               then emit (VizInfo " NO-BRANCH ") else emit VizFail) ;;;
              ret (Some e)
          | Ok activeBranches =>
              failedUpdates <- updateBranches repository activeBranches [] ;;
              report repository activeBranches failedUpdates ;;;
              ret None
          end
      end
  end.

(** The selection with which [updateRepository] enters its loop and the
    world it is in at that point; [None] when it returns before. *)
Definition entersLoop (repository : string) (w : World)
  : option (list string * World) :=
  let sp := spinnerStart repository w in
  match value sp with
  | Some _ => None
  | None =>
      let d := stashIfDirty repository (after sp) in
      match value d with
      | Some _ => None
      | None =>
          let f := fetchBranchesToUpdate repository (after d) in
          match value f with
          | Err _ => None
          | Ok activeBranches => Some (activeBranches, after f)
          end
      end
  end.

(** The loop of [RunE]: the result of [updateRepository] is dropped. *)
Fixpoint updateAll (repositories : list string) : M unit :=
  match repositories with
  | [] => ret tt
  | repo :: rest => updateRepository repo ;;; updateAll rest
  end.

(** [RunE], from the threshold check on. *)
Definition runRepositories (repositories : list string) : M (option error) :=
  if Nat.ltb warnThreshold (length repositories)
  then
    '(ok, err) <- confirmShow (length repositories) ;;
    match err with
    | Some e => ret (Some e)
    | None =>
        if negb ok then ret None
        else updateAll repositories ;;; ret None
    end
  else updateAll repositories ;;; ret None.

Definition RunE : M (option error) :=
  r <- expandPathWithTilde (pathPrefix cfg) ;;
  match r with
  | Err e => ret (Some e)
  | Ok rootDir =>
      err <- spinnerStart "Finding repositories" ;;
      match err with
      | Some e => ret (Some e)
      | None =>
          r <- findRepositories rootDir ;;
          match r with
          | Err e => ret (Some e)
          | Ok repositories =>
              emit (SpinnerFound (length repositories)) ;;;
              runRepositories repositories
          end
      end
  end.

(** The repositories with which [RunE] reaches the threshold check and
    the world it is in at that point; [None] when it returns before. *)
Definition discovered (w : World) : option (list string * World) :=
  let x := expandPathWithTilde (pathPrefix cfg) w in
  match value x with
  | Err _ => None
  | Ok rootDir =>
      let sp := spinnerStart "Finding repositories" (after x) in
      match value sp with
      | Some _ => None
      | None =>
          let f := findRepositories rootDir (after sp) in
          match value f with
          | Err _ => None
          | Ok repositories => Some (repositories, after f)
          end
      end
  end.

End Program.
End Current.

(** ** [repository.go] and the earlier [root.go] *)
Module Legacy.

Record repository : Type := mkRepository {
  path : string;
  remoteUpdated : bool
}.

Definition newRepository (path : string) : repository :=
  {| path := path; remoteUpdated := false |}.

Section Program.
Context {H : Host}.
Variable cfg : Config.

(** The methods have pointer receivers.  Each one is given the struct as
    it is when the call starts and hands back, next to its Go results,
    the struct as the call leaves it. *)

Definition IsDirty (r : repository) : M ((bool * option error) * repository) :=
  '(changes, err) <- Output (gitCmd (path r) ["status"; "--porcelain"]) ;;
  match err with
  | Some e => ret ((false, Some e), r)
  | None => ret ((Nat.ltb 0 (String.length changes), None), r)
  end.

Definition Stash (r : repository) : M (option error * repository) :=
  err <- Run (gitCmd (path r) ["stash"]) ;;
  ret (err, r).

Definition updateRemote (r : repository) : M (option error * repository) :=
  if remoteUpdated r then ret (None, r)
  else
    err <- Run (gitCmd (path r) ["fetch"; "--all"]) ;;
    ret (err, r).

Definition updateBranch (r : repository) (branch : string)
  : M (option error * repository) :=
  err <- Run (gitCmd (path r) ["checkout"; branch]) ;;
  match err with
  | Some e => ret (Some e, r)
  | None =>
      err <- Run (gitCmd (path r) ["pull"]) ;;
      ret (err, r)
  end.

(** The loop of [GetAllBranches] over the lines of [git branch -l]. *)
Definition collectBranches (branches : string) : list string :=
  fold_left
    (fun branchesList branch =>
       if branch =? "" then branchesList else branchesList ++ [branch])
    (Split branches newline) [].

Definition GetAllBranches (r : repository)
  : M (result (list string) * repository) :=
  '(err, r) <- updateRemote r ;;
  match err with
  | Some e => ret (Err e, r)
  | None =>
      '(branches, err) <- Output (gitCmd (path r) ["branch"; "-l"]) ;;
      match err with
      | Some e => ret (Err e, r)
      | None => ret (Ok (collectBranches branches), r)
      end
  end.

(** The loop of [Update]: it returns at the first branch that fails. *)
Fixpoint updateEach (r : repository) (brnaches : list string)
  : M (option error * repository) :=
  match brnaches with
  | [] => ret (None, r)
  | branch :: rest =>
      '(err, r) <- updateBranch r branch ;;
      match err with
      | Some e => ret (Some e, r)
      | None => updateEach r rest
      end
  end.

Definition Update (r : repository) (brnaches : list string)
  : M (option error * repository) :=
  '(err, r) <- updateRemote r ;;
  match err with
  | Some e => ret (Some e, r)
  | None => updateEach r brnaches
  end.

(** The calls a holder of a [*repository] can make, and a run of any
    number of them, one after the other, on the same struct. *)
Inductive Call : Type :=
| CallIsDirty
| CallStash
| CallGetAllBranches
| CallUpdate (brnaches : list string)
| CallUpdateRemote
| CallUpdateBranch (branch : string).

Definition call (c : Call) (r : repository) : M repository :=
  match c with
  | CallIsDirty => '(_, r) <- IsDirty r ;; ret r
  | CallStash => '(_, r) <- Stash r ;; ret r
  | CallGetAllBranches => '(_, r) <- GetAllBranches r ;; ret r
  | CallUpdate brnaches => '(_, r) <- Update r brnaches ;; ret r
  | CallUpdateRemote => '(_, r) <- updateRemote r ;; ret r
  | CallUpdateBranch branch => '(_, r) <- updateBranch r branch ;; ret r
  end.

Fixpoint calls (cs : list Call) (r : repository) : M repository :=
  match cs with
  | [] => ret r
  | c :: rest => r <- call c r ;; calls rest r
  end.

(** [updateRepository] of the earlier [root.go]; [fetchAndUpdate] is its
    text from the [git fetch --all] on, reached from two places.  The Go
    parameter [repository] is [dir] here, the name being taken by the
    struct. *)
Definition fetchAndUpdate (dir : string) (repo : repository)
  : M (option error) :=
  err <- Run (gitCmd dir ["fetch"; "--all"]) ;;
  match err with
  | Some e => ret (Some e)
  | None =>
      let continue (activeBranches : list string) (repo : repository) :=
        emit (Printf (String tab "updating %d branches\n")
                     [inr (length activeBranches)]) ;;;
        '(err, _) <- Update repo activeBranches ;;
        ret err in
      if allBranches cfg
      then
        '(r, repo) <- GetAllBranches repo ;;
        match r with
        | Err e => ret (Some e)
        | Ok activeBranches => continue activeBranches repo
        end
      else continue (requestedBranches cfg) repo
  end.

Definition updateRepository (dir : string) : M (option error) :=
  let repo := newRepository dir in
  emit (Println dir) ;;;
  '((dirty, err), repo) <- IsDirty repo ;;
  match err with
  | Some e => ret (Some e)
  | None =>
      if dirty then
        if stashChanges cfg then
          '(err, repo) <- Stash repo ;;
          match err with
          | Some e => ret (Some e)
          | None =>
              emit (Println (String tab "stashed changes")) ;;;
              fetchAndUpdate dir repo
          end
        else
          emit (Println (String tab "dirty, skipping")) ;;;
          ret None
      else fetchAndUpdate dir repo
  end.

(** The loop of the earlier [RunE]: the first error ends the run. *)
Fixpoint updateAll (repositories : list string) : M (option error) :=
  match repositories with
  | [] => ret None
  | dir :: rest =>
      err <- updateRepository dir ;;
      match err with
      | Some e => ret (Some e)
      | None => updateAll rest
      end
  end.

End Program.
End Legacy.

(** ** Reading a log *)
Module Log.

Definition isExec (c : Cmd) (e : Event) : bool :=
  match e with
  | Exec c' => Cmd_eqb c c'
  | _ => false
  end.

(** How many times the subprocess [c] was run. *)
Definition executions (c : Cmd) (t : list Event) : nat :=
  length (filter (isExec c) t).

(** The subprocesses that were run, in order. *)
Definition commands (t : list Event) : list Cmd :=
  flat_map (fun e => match e with Exec c => [c] | _ => [] end) t.

(** The branches given to [git checkout] in [repo], in order. *)
Definition checkoutOf (repo : string) (e : Event) : list string :=
  match e with
  | Exec (mkCmd name [verb; branch] dir) =>
      if (name =? "git") && (verb =? "checkout") && (dir =? repo)
      then [branch] else []
  | _ => []
  end.

Definition checkouts (repo : string) (t : list Event) : list string :=
  flat_map (checkoutOf repo) t.

(** The texts the per-repository spinner was started with, in order:
    one for every call of the current [updateRepository]. *)
Definition started (t : list Event) : list string :=
  flat_map (fun e => match e with SpinnerStart text => [text] | _ => [] end) t.

(** The lines printed with [fmt.Println], in order; the earlier
    [updateRepository] begins by printing its argument. *)
Definition printed (t : list Event) : list string :=
  flat_map (fun e => match e with Println line => [line] | _ => [] end) t.

(** The outcome a repository ends in, as the spinner shows it. *)
Inductive SkipReason : Type := Dirty | NoBranch.

Inductive Outcome : Type :=
| Skipped (reason : SkipReason)
| Failed
| Partial (succeeded : nat) (failed : list string)
| Success (count : nat).

Definition outcomeOf (e : Event) : list Outcome :=
  match e with
  | VizInfo prefixText =>
      if prefixText =? "SKIPPED" then [Skipped Dirty]
      else if prefixText =? " NO-BRANCH " then [Skipped NoBranch]
      else []
  | VizFail => [Failed]
  | VizWarning _ succeeded _ failed => [Partial succeeded failed]
  | VizSuccess _ succeeded _ => [Success succeeded]
  | _ => []
  end.

Definition outcomes (t : list Event) : list Outcome :=
  flat_map outcomeOf t.

Definition isSome {A} (o : option A) : bool :=
  match o with Some _ => true | None => false end.

(** What the spinner shows for an error: the prefixed info line when
    the error is the given sentinel, the failure mark otherwise. *)
Definition skipOrFail (e sentinel : error) (prefixText : string) : Event :=
  if errors_Is e sentinel then VizInfo prefixText else VizFail.


End Log.
Import Log.

(** ** What the specification says, in its own words

    These definitions are not taken from the source: they restate the
    specification, to be compared with what the program computes. *)
Module Spec.

(** The bytes Go's [unicode.IsSpace] accepts below 128. *)
Definition isWhitespace (c : ascii) : bool :=
  match nat_of_ascii c with
  | 9 | 10 | 11 | 12 | 13 | 32 => true
  | _ => false
  end.

Fixpoint hasWhitespace (s : string) : bool :=
  match s with
  | EmptyString => false
  | String c s' => isWhitespace c || hasWhitespace s'
  end.

(** "Lines that are empty, begin with refs/, heads/, or origin/, or
    contain embedded whitespace are discarded as non-branch noise." *)
Definition noise (line : string) : Prop :=
  line = "" \/
  (exists rest, line = ("refs/" ++ rest)%string) \/
  (exists rest, line = ("heads/" ++ rest)%string) \/
  (exists rest, line = ("origin/" ++ rest)%string) \/
  hasWhitespace line = true.

(** The same with "whitespace" narrowed to the space character. *)
Definition noiseSpace (line : string) : Prop :=
  line = "" \/
  (exists rest, line = ("refs/" ++ rest)%string) \/
  (exists rest, line = ("heads/" ++ rest)%string) \/
  (exists rest, line = ("origin/" ++ rest)%string) \/
  (exists before behind, line = (before ++ " " ++ behind)%string).

(** "Discarded are exactly the lines that are noise": of the lines of a
    listing, those kept are the ones that are not noise. *)
Definition discardsExactly (noise : string -> Prop) (lines kept : list string)
  : Prop :=
  forall line, In line lines -> (In line kept <-> ~ noise line).

(** "The subset of the filtered list whose name appears in names,
    preserving the repository's branch-list order." *)
Definition explicitSelection (filtered names : list string) : list string :=
  filter (fun branch => existsb (String.eqb branch) names) filtered.

(** "If all branches failed: Failed.  If some but not all failed:
    Partial(succeeded-count, failed-branch-names).  If none failed:
    Success(count)."  [results] holds, per selected branch, the error of
    its update if it had one. *)
Definition failedNames (selected : list string) (results : list (option error))
  : list string :=
  map fst (filter (fun p => isSome (snd p)) (combine selected results)).

Definition aggregate (selected : list string) (results : list (option error))
  : Outcome :=
  if forallb isSome results then Failed
  else if existsb isSome results
       then Partial (length (filter (fun r => negb (isSome r)) results))
                    (failedNames selected results)
       else Success (length selected).

End Spec.

(** ** Scripted hosts

    Concrete worlds to run the program in.  The state is the branch that
    is checked out; what the subprocesses print and which of them fail is
    fixed by a script. *)
Module Scenario.

Record Script : Type := mkScript {
  findOutput : string;               (* printed by find *)
  statusOutput : string;             (* printed by git status --porcelain *)
  listing : string;                  (* printed by git branch -l *)
  brokenRepositories : list string;  (* git status fails in these *)
  unknownBranches : list string;     (* git checkout of these fails *)
  brokenBranches : list string       (* git pull fails on these *)
}.

Definition mem (x : string) (l : list string) : bool :=
  existsb (String.eqb x) l.

Definition scriptedExec (s : Script) (c : Cmd) (head : string)
  : (string * option nat) * string :=
  if cmdName c =? "find" then ((findOutput s, None), head)
  else
    match cmdArgs c with
    | [verb] =>
        if (verb =? "pull") && mem head (brokenBranches s)
        then (("", Some 1), head)
        else (("", None), head)
    | [verb; arg] =>
        if verb =? "status" then
          if mem (cmdDir c) (brokenRepositories s)
          then (("", Some 128), head)
          else ((statusOutput s, None), head)
        else if verb =? "checkout" then
          if mem arg (unknownBranches s)
          then (("", Some 1), head)
          else (("", None), arg)
        else if verb =? "branch" then ((listing s, None), head)
        else (("", None), head)
    | verb :: _ =>
        if verb =? "branch" then ((listing s, None), head)
        else (("", None), head)
    | [] => (("", None), head)
    end.

Definition scripted (s : Script) : Host :=
  {| World := string;
     hostExec := scriptedExec s;
     hostUserCurrent := fun w => (("/home/dev", None), w);
     hostSpinnerStart := fun _ w => (None, w);
     hostConfirm := fun _ w => ((true, None), w);
     hostJoin := fun a b => (a ++ "/" ++ b)%string |}.

(** A clean repository with branches a, b and c, where pulling b fails. *)
Definition abc : Script :=
  {| findOutput := unlines ["./one/.git"; "./two/.git"; "./three/.git"];
     statusOutput := "";
     listing := unlines ["a"; "b"; "c"];
     brokenRepositories := ["./two"];
     unknownBranches := [];
     brokenBranches := ["b"] |}.

(** A repository with local changes and the branches main and dev. *)
Definition dirty : Script :=
  {| findOutput := unlines ["./one/.git"];
     statusOutput := unlines [" M README.md"];
     listing := unlines ["main"; "dev"];
     brokenRepositories := [];
     unknownBranches := [];
     brokenBranches := [] |}.

(** A clean repository where no branch can be updated. *)
Definition hopeless : Script :=
  {| findOutput := unlines ["./one/.git"];
     statusOutput := "";
     listing := unlines ["main"; "dev"];
     brokenRepositories := [];
     unknownBranches := ["dev"];
     brokenBranches := ["main"] |}.

(** The listing of the specification's filtering example. *)
Definition noisy : Script :=
  {| findOutput := unlines ["./one/.git"];
     statusOutput := "";
     listing := unlines ["refs/heads/main"; "origin/main"; "  "; "main"];
     brokenRepositories := [];
     unknownBranches := [];
     brokenBranches := [] |}.

(** A clean repository with the branches main and feature-x. *)
Definition twoBranches : Script :=
  {| findOutput := unlines ["./one/.git"];
     statusOutput := "";
     listing := unlines ["main"; "feature-x"];
     brokenRepositories := [];
     unknownBranches := [];
     brokenBranches := [] |}.

(** A line with a tab in it. *)
Definition tabbed : string := String "a" (String tab "b").

Definition allBranchesConfig : Config := mkConfig "." [] true false.
Definition explicitConfig (names : list string) : Config :=
  mkConfig "." names false false.

End Scenario.

(** ** More ways to read a text and a log *)

(** A string that holds no newline: a line. *)
Definition singleLine (s : string) : bool :=
  negb (Contains s (String newline EmptyString)).

(** The lines [find] prints for the given working-tree roots. *)
Definition foundAt (roots : list string) : string :=
  unlines (map (fun root => (root ++ "/.git")%string) roots).

(** The prompts shown, by the number they ask about. *)
Definition prompts (t : list Event) : list nat :=
  flat_map (fun e => match e with ConfirmShow n => [n] | _ => [] end) t.

(** ** Hosts where things go wrong

    A scripted host on which the user lookup, the prompt, [find] and
    chosen git verbs can be made to fail, and the prompt to be declined. *)
Module Trouble.
Import Scenario.

Record Faults : Type := mkFaults {
  noUser : bool;                 (* user.Current() fails *)
  findFails : bool;              (* find exits non-zero *)
  declined : bool;               (* the prompt is answered with no *)
  promptFails : bool;            (* the prompt itself fails *)
  failingVerbs : list string     (* git verbs that exit non-zero *)
}.

Definition faultyExec (s : Script) (f : Faults) (c : Cmd) (head : string)
  : (string * option nat) * string :=
  if (cmdName c =? "find") && findFails f then (("", Some 1), head)
  else
    match cmdArgs c with
    | verb :: _ =>
        if (cmdName c =? "git") && mem verb (failingVerbs f)
        then (("", Some 1), head)
        else scriptedExec s c head
    | [] => scriptedExec s c head
    end.

Definition faulty (s : Script) (f : Faults) : Host :=
  {| World := string;
     hostExec := faultyExec s f;
     hostUserCurrent := fun w =>
       if noUser f then (("", Some 2), w) else (("/home/dev", None), w);
     hostSpinnerStart := fun _ w => (None, w);
     hostConfirm := fun _ w =>
       ((negb (declined f), if promptFails f then Some 3 else None), w);
     hostJoin := fun a b => (a ++ "/" ++ b)%string |}.

Definition noFaults : Faults := mkFaults false false false false [].

(** Eleven clean repositories, one more than the threshold. *)
Definition eleven : list string :=
  ["./r01"; "./r02"; "./r03"; "./r04"; "./r05"; "./r06";
   "./r07"; "./r08"; "./r09"; "./r10"; "./r11"].

Definition crowded : Script :=
  {| findOutput := foundAt eleven;
     statusOutput := "";
     listing := unlines ["main"];
     brokenRepositories := [];
     unknownBranches := [];
     brokenBranches := [] |}.

End Trouble.


(** * Properties *)

(** ** Strings *)
Section StringFacts.

Lemma HasPrefix_app (p rest : string) : HasPrefix (p ++ rest) p = true.
Proof.
  induction p as [|c p IH]; simpl; [reflexivity|].
  now rewrite Ascii.eqb_refl, IH.
Qed.

Lemma HasPrefix_inv (p s : string) :
  HasPrefix s p = true -> exists rest, s = (p ++ rest)%string.
Proof.
  revert s; induction p as [|c p IH]; intros s Hp; simpl in *.
  - now exists s.
  - destruct s as [|d s]; [discriminate|].
    apply andb_true_iff in Hp as [Hc Hs].
    apply Ascii.eqb_eq in Hc; subst d.
    destruct (IH _ Hs) as [rest ->]. now exists rest.
Qed.

Lemma HasPrefix_iff (p s : string) :
  HasPrefix s p = true <-> exists rest, s = (p ++ rest)%string.
Proof.
  split; [apply HasPrefix_inv|].
  intros [rest ->]; apply HasPrefix_app.
Qed.

Lemma Contains_here (sub s : string) :
  HasPrefix s sub = true -> Contains s sub = true.
Proof. intros Hp. destruct s; simpl; now rewrite Hp. Qed.

Lemma Contains_iff (sub s : string) :
  Contains s sub = true <->
  exists before behind, s = (before ++ sub ++ behind)%string.
Proof.
  split.
  - induction s as [|c s IH]; simpl; intros Hc.
    + rewrite orb_false_r in Hc. apply HasPrefix_inv in Hc as [rest ->].
      now exists ""%string, rest.
    + apply orb_true_iff in Hc as [Hc|Hc].
      * apply HasPrefix_inv in Hc as [rest ->]. now exists ""%string, rest.
      * destruct (IH Hc) as (before & behind & ->).
        now exists (String c before), behind.
  - intros (before & behind & ->).
    induction before as [|c before IH]; simpl.
    + apply Contains_here, HasPrefix_app.
    + rewrite IH. apply orb_true_r.
Qed.


Lemma length_append (a b : string) :
  String.length (a ++ b) = String.length a + String.length b.
Proof. induction a as [|c a IH]; simpl; [reflexivity | now rewrite IH]. Qed.

Lemma append_assoc (a b c : string) :
  ((a ++ b) ++ c)%string = (a ++ (b ++ c))%string.
Proof. induction a as [|x a IH]; simpl; [reflexivity | now rewrite IH]. Qed.

Lemma substring_all (s : string) : substring 0 (String.length s) s = s.
Proof. induction s as [|c s IH]; simpl; [reflexivity | now rewrite IH]. Qed.

Lemma substring_front (a b : string) :
  substring 0 (String.length a) (a ++ b) = a.
Proof.
  induction a as [|c a IH]; simpl; [now destruct b | now rewrite IH].
Qed.

Lemma substring_back (a b : string) :
  substring (String.length a) (String.length b) (a ++ b) = b.
Proof.
  induction a as [|c a IH]; simpl; [apply substring_all | exact IH].
Qed.

Lemma HasSuffix_app (a suffix : string) : HasSuffix (a ++ suffix) suffix = true.
Proof.
  unfold HasSuffix. rewrite length_append.
  replace (String.length a + String.length suffix - String.length suffix)
    with (String.length a) by lia.
  rewrite substring_back, String.eqb_refl, andb_true_r.
  apply Nat.leb_le. lia.
Qed.

Lemma TrimSuffix_app (a suffix : string) : TrimSuffix (a ++ suffix) suffix = a.
Proof.
  unfold TrimSuffix. rewrite HasSuffix_app, length_append.
  replace (String.length a + String.length suffix - String.length suffix)
    with (String.length a) by lia.
  apply substring_front.
Qed.

Lemma HasSuffix_empty (suffix : string) :
  suffix <> ""%string -> HasSuffix "" suffix = false.
Proof. destruct suffix; [congruence | reflexivity]. Qed.

Lemma singleLine_cons (c : ascii) (s : string) :
  singleLine (String c s) = negb (Ascii.eqb c newline) && singleLine s.
Proof.
  unfold singleLine. simpl. rewrite andb_true_r. now rewrite negb_orb.
Qed.

Lemma singleLine_app (a b : string) :
  singleLine (a ++ b) = singleLine a && singleLine b.
Proof.
  induction a as [|c a IH]; [reflexivity|].
  change (String c a ++ b)%string with (String c (a ++ b)).
  now rewrite !singleLine_cons, IH, andb_assoc.
Qed.

Lemma Split_line (line rest : string) :
  singleLine line = true ->
  Split (line ++ String newline rest) newline = line :: Split rest newline.
Proof.
  induction line as [|c line IH]; intros Hline.
  - cbn [append Split]. now rewrite Ascii.eqb_refl.
  - rewrite singleLine_cons in Hline. apply andb_true_iff in Hline as [Hc Hl].
    apply negb_true_iff in Hc.
    change (String c line ++ String newline rest)%string
      with (String c (line ++ String newline rest)).
    cbn [Split]. rewrite Hc, (IH Hl). reflexivity.
Qed.

Lemma Split_unlines (lines : list string) :
  (forall line, In line lines -> singleLine line = true) ->
  Split (unlines lines) newline = lines ++ [""%string].
Proof.
  induction lines as [|l ls IH]; intros Hall; [reflexivity|].
  simpl unlines. rewrite Split_line by (apply Hall; now left).
  rewrite IH by (intros; apply Hall; now right). reflexivity.
Qed.

Lemma Split_nonempty (s : string) (sep : ascii) : Split s sep <> [].
Proof.
  induction s as [|c s IH]; simpl; [discriminate|].
  destruct (Ascii.eqb c sep); [discriminate|].
  destruct (Split s sep); discriminate.
Qed.

End StringFacts.

(** ** Loops that only append *)
Section Appending.
Context {A B : Type}.

Lemma fold_left_appending (f : B -> list A) (l : list B) (acc : list A) :
  fold_left (fun acc x => acc ++ f x) l acc = acc ++ flat_map f l.
Proof.
  revert acc; induction l as [|x l IH]; intros acc; simpl.
  - now rewrite app_nil_r.
  - now rewrite IH, app_assoc.
Qed.

Lemma fold_left_ext_step (f g : list A -> B -> list A) (l : list B) (acc : list A) :
  (forall a x, f a x = g a x) -> fold_left f l acc = fold_left g l acc.
Proof.
  intros E; revert acc; induction l as [|x l IH]; intros acc; simpl;
    [reflexivity | now rewrite E, IH].
Qed.

Lemma flat_map_filter (keep : B -> bool) (f : B -> list A) (l : list B) :
  flat_map (fun x => if keep x then f x else []) l = flat_map f (filter keep l).
Proof.
  induction l as [|x l IH]; simpl; [reflexivity|].
  destruct (keep x); simpl; now rewrite IH.
Qed.

Lemma flat_map_singleton (l : list A) : flat_map (fun x => [x]) l = l.
Proof.
  induction l as [|x l IH]; simpl; [reflexivity | now rewrite IH].
Qed.

End Appending.

(** ** Branch selection in the current [fetchBranchesToUpdate] *)
Module SelectionFacts.
Import Current.
Section Facts.
Variable cfg : Config.

Lemma matches_copies (branch : string) (names : list string) :
  flat_map (fun activeBranch => if branch =? activeBranch then [branch] else [])
           names
  = repeat branch (count_occ string_dec names branch).
Proof.
  induction names as [|n names IH]; simpl; [reflexivity|].
  destruct (String.eqb_spec branch n) as [->|Hne].
  - destruct (string_dec n n) as [_|C]; [|contradiction]. simpl. now rewrite IH.
  - destruct (string_dec n branch) as [C|_]; [now subst|]. simpl. exact IH.
Qed.

Lemma appendRequested_copies (branchesList : list string) (branch : string) :
  appendRequested cfg branchesList branch = branchesList ++ copies cfg branch.
Proof.
  unfold appendRequested, copies.
  rewrite <- matches_copies, <- fold_left_appending.
  apply fold_left_ext_step; intros a x.
  destruct (branch =? x); [reflexivity | now rewrite app_nil_r].
Qed.

Lemma collectBranches_flat_map (branches : string) :
  collectBranches cfg branches = flat_map (contribution cfg) (Split branches newline).
Proof.
  unfold collectBranches.
  change (flat_map (contribution cfg) (Split branches newline))
    with ([] ++ flat_map (contribution cfg) (Split branches newline)).
  rewrite <- fold_left_appending.
  apply fold_left_ext_step; intros a x. unfold contribution.
  destruct (skipped x); [now rewrite app_nil_r|].
  destruct (negb (allBranches cfg)); [apply appendRequested_copies | reflexivity].
Qed.

Lemma collectBranches_all (branches : string) :
  allBranches cfg = true ->
  collectBranches cfg branches = filtered branches.
Proof.
  intros Hall. rewrite collectBranches_flat_map. unfold contribution, filtered.
  rewrite Hall; simpl.
  rewrite <- (flat_map_singleton (filter _ _)).
  rewrite <- flat_map_filter. apply flat_map_ext; intros b.
  now destruct (skipped b).
Qed.

Lemma collectBranches_explicit (branches : string) :
  allBranches cfg = false ->
  collectBranches cfg branches = flat_map (copies cfg) (filtered branches).
Proof.
  intros Hall. rewrite collectBranches_flat_map. unfold contribution, filtered.
  rewrite Hall; simpl.
  rewrite <- flat_map_filter. apply flat_map_ext; intros b.
  now destruct (skipped b).
Qed.

Lemma copies_NoDup (branch : string) :
  NoDup (requestedBranches cfg) ->
  copies cfg branch =
  if existsb (String.eqb branch) (requestedBranches cfg) then [branch] else [].
Proof.
  unfold copies. induction (requestedBranches cfg) as [|n names IH]; intros Hnd;
    simpl; [reflexivity|].
  inversion Hnd as [|? ? Hnotin Hnd']; subst.
  destruct (String.eqb_spec branch n) as [->|Hne]; simpl.
  - destruct (string_dec n n) as [_|C]; [|contradiction].
    apply (count_occ_not_In string_dec) in Hnotin. now rewrite Hnotin.
  - destruct (string_dec n branch) as [C|_]; [now subst|]. now apply IH.
Qed.

Lemma explicit_NoDup (branches : string) :
  allBranches cfg = false ->
  NoDup (requestedBranches cfg) ->
  collectBranches cfg branches
  = Spec.explicitSelection (filtered branches) (requestedBranches cfg).
Proof.
  intros Hall Hnd. rewrite collectBranches_explicit by exact Hall.
  unfold Spec.explicitSelection.
  rewrite <- (flat_map_singleton (filter _ (filtered branches))).
  rewrite <- flat_map_filter. apply flat_map_ext; intros b.
  now apply copies_NoDup.
Qed.

Lemma count_occ_flat_map_copies (l : list string) (branch : string) :
  count_occ string_dec (flat_map (copies cfg) l) branch
  = count_occ string_dec l branch
    * count_occ string_dec (requestedBranches cfg) branch.
Proof.
  induction l as [|x l IH]; simpl; [reflexivity|].
  rewrite count_occ_app, IH. unfold copies at 1.
  destruct (string_dec x branch) as [->|Hne].
  - rewrite count_occ_repeat_eq by reflexivity. simpl. lia.
  - rewrite count_occ_repeat_neq by congruence. lia.
Qed.

Lemma copies_In (branch name : string) :
  In name (copies cfg branch) ->
  name = branch /\ In branch (requestedBranches cfg).
Proof.
  unfold copies. intros Hin.
  assert (E : name = branch) by (eapply repeat_spec; exact Hin).
  split; [exact E|].
  apply (count_occ_In string_dec).
  destruct (count_occ string_dec (requestedBranches cfg) branch);
    [destruct Hin | lia].
Qed.

Lemma collectBranches_In (branches name : string) :
  In name (collectBranches cfg branches) ->
  In name (Split branches newline) /\ skipped name = false
  /\ (allBranches cfg = false -> In name (requestedBranches cfg)).
Proof.
  rewrite collectBranches_flat_map, in_flat_map.
  intros (line & Hline & Hin). unfold contribution in Hin.
  destruct (skipped line) eqn:Es; [destruct Hin|].
  destruct (allBranches cfg); simpl in Hin.
  - destruct Hin as [<-|[]]. repeat split; [exact Hline | exact Es | discriminate].
  - apply copies_In in Hin as [-> Hreq]. now repeat split.
Qed.

Lemma copies_Permutation (cfg' : Config) (branch : string) :
  Permutation (requestedBranches cfg) (requestedBranches cfg') ->
  copies cfg branch = copies cfg' branch.
Proof.
  intros Hperm. unfold copies.
  now rewrite (proj1 (Permutation_count_occ string_dec _ _) Hperm branch).
Qed.

End Facts.
End SelectionFacts.

(** ** Runs *)
Section RunFacts.
Context {H : Host}.

Lemma bind_run {A B} (m : M A) (k : A -> M B) (w : World) :
  bind m k w =
  (value (k (value (m w)) (after (m w))),
   trace (m w) ++ trace (k (value (m w)) (after (m w))),
   after (k (value (m w)) (after (m w)))).
Proof.
  unfold bind, value, trace, after.
  destruct (m w) as [[a t1] w1]; simpl.
  destruct (k a w1) as [[b t2] w2]; reflexivity.
Qed.

Lemma value_of {A} (a : A) (t : list Event) (w : World) : value (a, t, w) = a.
Proof. reflexivity. Qed.

Lemma trace_of {A} (a : A) (t : list Event) (w : World) : trace (a, t, w) = t.
Proof. reflexivity. Qed.

Lemma after_of {A} (a : A) (t : list Event) (w : World) : after (a, t, w) = w.
Proof. reflexivity. Qed.

Lemma Output_run (c : Cmd) (w : World) :
  Output c w =
  ((fst (fst (hostExec c w)), liftErr (snd (fst (hostExec c w)))),
   [Exec c], snd (hostExec c w)).
Proof. unfold Output. now destruct (hostExec c w) as [[out err] w']. Qed.

Lemma Run_run (c : Cmd) (w : World) :
  Run c w = (liftErr (snd (fst (hostExec c w))), [Exec c], snd (hostExec c w)).
Proof. unfold Run. rewrite bind_run, Output_run. reflexivity. Qed.

Lemma spinnerStart_run (text : string) (w : World) :
  spinnerStart text w =
  (liftErr (fst (hostSpinnerStart text w)), [SpinnerStart text],
   snd (hostSpinnerStart text w)).
Proof. unfold spinnerStart. now destruct (hostSpinnerStart text w). Qed.

Lemma confirmShow_run (n : nat) (w : World) :
  confirmShow n w =
  ((fst (fst (hostConfirm n w)), liftErr (snd (fst (hostConfirm n w)))),
   [ConfirmShow n], snd (hostConfirm n w)).
Proof. unfold confirmShow. now destruct (hostConfirm n w) as [[ok err] w']. Qed.


End RunFacts.

(** ** Logs *)
Section LogFacts.

Lemma checkouts_app (repo : string) (t1 t2 : list Event) :
  checkouts repo (t1 ++ t2) = checkouts repo t1 ++ checkouts repo t2.
Proof. apply flat_map_app. Qed.

Lemma started_app (t1 t2 : list Event) :
  started (t1 ++ t2) = started t1 ++ started t2.
Proof. apply flat_map_app. Qed.

Lemma outcomes_app (t1 t2 : list Event) :
  outcomes (t1 ++ t2) = outcomes t1 ++ outcomes t2.
Proof. apply flat_map_app. Qed.

Lemma Cmd_eqb_refl (c : Cmd) : Cmd_eqb c c = true.
Proof.
  unfold Cmd_eqb. rewrite !String.eqb_refl.
  now destruct (list_eq_dec string_dec (cmdArgs c) (cmdArgs c)).
Qed.

Lemma Cmd_eqb_eq (a b : Cmd) : Cmd_eqb a b = true <-> a = b.
Proof.
  split; [|intros ->; apply Cmd_eqb_refl].
  unfold Cmd_eqb. destruct a as [n1 a1 d1], b as [n2 a2 d2]; simpl.
  intros E. apply andb_true_iff in E as [E Ed].
  apply andb_true_iff in E as [En Ea].
  apply String.eqb_eq in En, Ed.
  destruct (list_eq_dec string_dec a1 a2); [|discriminate]. congruence.
Qed.

Lemma executions_In (c : Cmd) (t : list Event) :
  0 < executions c t <-> In (Exec c) t.
Proof.
  unfold executions. induction t as [|e t IH]; simpl; [split; [lia|tauto]|].
  destruct (isExec c e) eqn:E; simpl.
  - split; [|lia]. intros _. left.
    destruct e; simpl in E; try discriminate.
    apply Cmd_eqb_eq in E. now subst.
  - rewrite IH. split; [tauto|]. intros [->|Hin]; [|exact Hin].
    simpl in E. now rewrite Cmd_eqb_refl in E.
Qed.

Lemma executions_join (c : Cmd) (t1 t2 : list Event) :
  executions c (t1 ++ t2) = executions c t1 + executions c t2.
Proof. unfold executions. now rewrite filter_app, length_app. Qed.




End LogFacts.

(** ** Counting failures *)
Section Aggregation.

Lemma failedNames_length (selected : list string) (results : list (option error)) :
  length selected = length results ->
  length (Spec.failedNames selected results) = length (filter isSome results).
Proof.
  unfold Spec.failedNames. rewrite length_map.
  revert results; induction selected as [|b bs IH]; intros [|r rs] Hlen;
    simpl in *; try discriminate; [reflexivity|].
  destruct r; simpl; rewrite IH by lia; reflexivity.
Qed.

Lemma filter_isSome_le (results : list (option error)) :
  length (filter isSome results) <= length results.
Proof. induction results as [|[e|] rs IH]; simpl; lia. Qed.

Lemma all_failed_iff (results : list (option error)) :
  length (filter isSome results) = length results <->
  forallb isSome results = true.
Proof.
  induction results as [|[e|] rs IH]; simpl.
  - tauto.
  - rewrite <- IH. lia.
  - pose proof (filter_isSome_le rs). split; [lia | discriminate].
Qed.

Lemma some_failed_iff (results : list (option error)) :
  0 < length (filter isSome results) <-> existsb isSome results = true.
Proof.
  induction results as [|[e|] rs IH]; simpl.
  - split; [lia | discriminate].
  - split; [reflexivity | lia].
  - exact IH.
Qed.

Lemma succeeded_count (results : list (option error)) :
  length results - length (filter isSome results)
  = length (filter (fun r => negb (isSome r)) results).
Proof.
  induction results as [|[e|] rs IH]; cbn -[Nat.sub]; [reflexivity| |].
  - rewrite <- IH. reflexivity.
  - pose proof (filter_isSome_le rs). rewrite <- IH. lia.
Qed.

End Aggregation.

(** ** The current orchestrator, step by step *)
Module CurrentFacts.
Import Current.
Section Facts.
Context {H : Host}.
Variable cfg : Config.

Ltac run_simpl := unfold value, trace, after; simpl.

Lemma updateBranch_run (repo branch : string) (w : World) :
  updateBranch repo branch w =
  let co := hostExec (checkoutCmd repo branch) w in
  match snd (fst co) with
  | Some code => (Some (HostError code), [Exec (checkoutCmd repo branch)], snd co)
  | None =>
      let pl := hostExec (pullCmd repo) (snd co) in
      (liftErr (snd (fst pl)),
       [Exec (checkoutCmd repo branch); Exec (pullCmd repo)], snd pl)
  end.
Proof.
  unfold updateBranch, checkoutCmd, pullCmd.
  rewrite bind_run, Run_run. run_simpl.
  destruct (snd (fst (hostExec (gitCmd repo ["checkout"; branch]) w))); simpl.
  - reflexivity.
  - now rewrite Run_run.
Qed.

Lemma stashIfDirty_run (repo : string) (w : World) :
  stashIfDirty cfg repo w =
  let st := hostExec (statusCmd repo) w in
  match snd (fst st) with
  | Some code => (Some (HostError code), [Exec (statusCmd repo)], snd st)
  | None =>
      if Nat.eqb (String.length (fst (fst st))) 0
      then (None, [Exec (statusCmd repo)], snd st)
      else if stashChanges cfg
           then (liftErr (snd (fst (hostExec (stashCmd repo) (snd st)))),
                 [Exec (statusCmd repo); Exec (stashCmd repo)],
                 snd (hostExec (stashCmd repo) (snd st)))
           else (Some errStashNotAllowed, [Exec (statusCmd repo)], snd st)
  end.
Proof.
  unfold stashIfDirty, statusCmd, stashCmd.
  rewrite bind_run, Output_run. run_simpl.
  destruct (snd (fst (hostExec (gitCmd repo ["status"; "--porcelain"]) w))); simpl;
    [reflexivity|].
  destruct (Nat.eqb _ 0); [reflexivity|].
  destruct (stashChanges cfg); simpl; [|reflexivity].
  now rewrite Run_run.
Qed.

Lemma fetchBranchesToUpdate_run (repo : string) (w : World) :
  fetchBranchesToUpdate cfg repo w =
  let fe := hostExec (fetchCmd repo) w in
  match snd (fst fe) with
  | Some code => (Err (HostError code), [Exec (fetchCmd repo)], snd fe)
  | None =>
      let li := hostExec (listCmd repo) (snd fe) in
      match snd (fst li) with
      | Some code =>
          (Err (HostError code), [Exec (fetchCmd repo); Exec (listCmd repo)], snd li)
      | None =>
          (match collectBranches cfg (fst (fst li)) with
           | [] => Err errNoBranch
           | selection => Ok selection
           end,
           [Exec (fetchCmd repo); Exec (listCmd repo)], snd li)
      end
  end.
Proof.
  unfold fetchBranchesToUpdate, fetchCmd, listCmd.
  rewrite bind_run, Run_run. run_simpl.
  destruct (snd (fst (hostExec (gitCmd repo ["fetch"; "--all"]) w))); simpl;
    [reflexivity|].
  rewrite bind_run, Output_run. run_simpl.
  destruct (snd (fst (hostExec _ (snd (hostExec _ w))))); simpl; [reflexivity|].
  destruct (collectBranches cfg _); reflexivity.
Qed.

(** *** The per-branch loop *)

Lemma branchResults_length (repo : string) (branches : list string) (w : World) :
  length (branchResults repo branches w) = length branches.
Proof.
  revert w; induction branches as [|b bs IH]; intros w; simpl;
    [reflexivity | now rewrite IH].
Qed.

Lemma updateBranch_checkouts (repo branch : string) (w : World) :
  checkouts repo (trace (updateBranch repo branch w)) = [branch].
Proof.
  rewrite updateBranch_run. cbv zeta.
  destruct (snd (fst (hostExec (checkoutCmd repo branch) w)));
    unfold trace, checkouts; simpl; now rewrite String.eqb_refl.
Qed.

Lemma updateBranch_outcomes (repo branch : string) (w : World) :
  outcomes (trace (updateBranch repo branch w)) = [].
Proof.
  rewrite updateBranch_run. cbv zeta.
  destruct (snd (fst (hostExec (checkoutCmd repo branch) w))); reflexivity.
Qed.

Lemma updateBranches_step (repo branch : string) (rest failed : list string)
      (w : World) :
  updateBranches repo (branch :: rest) failed w =
  let r := updateBranch repo branch w in
  let k := updateBranches repo rest
             (if isSome (value r) then failed ++ [branch] else failed) (after r) in
  (value k, VizUpdateText branch repo :: trace r ++ trace k, after k).
Proof.
  simpl. rewrite bind_run. unfold emit at 1. run_simpl.
  rewrite bind_run. run_simpl.
  destruct (fst (fst (updateBranch repo branch w))); reflexivity.
Qed.

Lemma updateBranches_value (repo : string) (branches failed : list string)
      (w : World) :
  value (updateBranches repo branches failed w)
  = failed ++ Spec.failedNames branches (branchResults repo branches w).
Proof.
  revert failed w; induction branches as [|b bs IH]; intros failed w.
  - simpl. unfold value; simpl. now rewrite app_nil_r.
  - rewrite updateBranches_step. cbv zeta. unfold value at 1; simpl fst.
    rewrite IH. simpl branchResults. unfold Spec.failedNames; simpl.
    destruct (value (updateBranch repo b w)); simpl;
      [now rewrite <- app_assoc | reflexivity].
Qed.

Lemma updateBranches_checkouts (repo : string) (branches failed : list string)
      (w : World) :
  checkouts repo (trace (updateBranches repo branches failed w)) = branches.
Proof.
  revert failed w; induction branches as [|b bs IH]; intros failed w.
  - reflexivity.
  - rewrite updateBranches_step. cbv zeta. unfold trace at 1; simpl snd.
    change (VizUpdateText b repo :: ?t) with ([VizUpdateText b repo] ++ t).
    rewrite !checkouts_app, updateBranch_checkouts, IH. reflexivity.
Qed.

Lemma updateBranches_outcomes (repo : string) (branches failed : list string)
      (w : World) :
  outcomes (trace (updateBranches repo branches failed w)) = [].
Proof.
  revert failed w; induction branches as [|b bs IH]; intros failed w.
  - reflexivity.
  - rewrite updateBranches_step. cbv zeta. unfold trace at 1; simpl snd.
    change (VizUpdateText b repo :: ?t) with ([VizUpdateText b repo] ++ t).
    rewrite !outcomes_app, updateBranch_outcomes, IH. reflexivity.
Qed.

(** *** The report *)

Lemma report_after (repository : string) (selected failed : list string)
      (w : World) :
  after (report repository selected failed w) = w.
Proof.
  unfold report.
  destruct (Nat.eqb _ _); [reflexivity|]. now destruct (Nat.ltb _ _).
Qed.

Lemma report_run (repository : string) (selected failed : list string)
      (w : World) :
  exists e, report repository selected failed w = (tt, [e], w)
            /\ outcomeOf e <> [].
Proof.
  unfold report.
  destruct (Nat.eqb _ _); [eexists; split; [reflexivity|discriminate]|].
  destruct (Nat.ltb _ _); eexists; (split; [reflexivity|discriminate]).
Qed.

Lemma report_outcomes (repository : string) (selected : list string)
      (results : list (option error)) (w : World) :
  length results = length selected ->
  outcomes (trace (report repository selected (Spec.failedNames selected results) w))
  = [Spec.aggregate selected results].
Proof.
  intros Hlen. unfold report, Spec.aggregate.
  rewrite failedNames_length by congruence. rewrite <- Hlen.
  destruct (Nat.eqb_spec (length (filter isSome results)) (length results)) as [E|E].
  - apply all_failed_iff in E. now rewrite E.
  - destruct (forallb isSome results) eqn:Eall;
      [now apply all_failed_iff in Eall|].
    destruct (Nat.ltb_spec 0 (length (filter isSome results))) as [L|L].
    + apply some_failed_iff in L. rewrite L. unfold trace; simpl.
      now rewrite succeeded_count.
    + destruct (existsb isSome results) eqn:Eex.
      * apply some_failed_iff in Eex. lia.
      * unfold trace; simpl. now rewrite Hlen.
Qed.

(** *** One repository *)

Lemma updateRepository_run (repository : string) (w : World) :
  updateRepository cfg repository w =
  let sp := hostSpinnerStart repository w in
  match fst sp with
  | Some code => (Some (HostError code), [SpinnerStart repository], snd sp)
  | None =>
      let d := stashIfDirty cfg repository (snd sp) in
      match value d with
      | Some e =>
          (Some e,
           SpinnerStart repository :: trace d
             ++ [skipOrFail e errStashNotAllowed "SKIPPED"],
           after d)
      | None =>
          let f := fetchBranchesToUpdate cfg repository (after d) in
          match value f with
          | Err e =>
              (Some e,
               SpinnerStart repository :: trace d ++ trace f
                 ++ [skipOrFail e errNoBranch " NO-BRANCH "],
               after f)
          | Ok selection =>
              let u := updateBranches repository selection [] (after f) in
              (None,
               SpinnerStart repository :: trace d ++ trace f ++ trace u
                 ++ trace (report repository selection (value u) (after u)),
               after u)
          end
      end
  end.
Proof.
  unfold updateRepository.
  rewrite bind_run, spinnerStart_run. run_simpl.
  destruct (fst (hostSpinnerStart repository w)); simpl; [reflexivity|].
  rewrite bind_run. run_simpl.
  destruct (fst (fst (stashIfDirty cfg repository _))) as [e|]; simpl.
  - rewrite bind_run. unfold skipOrFail.
    destruct (errors_Is e errStashNotAllowed); reflexivity.
  - rewrite bind_run. run_simpl.
    destruct (fst (fst (fetchBranchesToUpdate cfg repository _))) as [sel|e]; simpl.
    + rewrite !bind_run. rewrite report_after. run_simpl.
      now rewrite app_nil_r.
    + rewrite bind_run. unfold skipOrFail.
      destruct (errors_Is e errNoBranch); reflexivity.
Qed.

(** *** What the steps before the loop leave in the log *)

Lemma stashIfDirty_quiet (repo : string) (w : World) :
  outcomes (trace (stashIfDirty cfg repo w)) = []
  /\ checkouts repo (trace (stashIfDirty cfg repo w)) = [].
Proof.
  rewrite stashIfDirty_run. cbv zeta.
  destruct (snd (fst (hostExec (statusCmd repo) w))); [now split|].
  destruct (Nat.eqb _ 0); [now split|].
  destruct (stashChanges cfg); now split.
Qed.

Lemma fetchBranchesToUpdate_quiet (repo : string) (w : World) :
  outcomes (trace (fetchBranchesToUpdate cfg repo w)) = []
  /\ checkouts repo (trace (fetchBranchesToUpdate cfg repo w)) = [].
Proof.
  rewrite fetchBranchesToUpdate_run. cbv zeta.
  destruct (snd (fst (hostExec (fetchCmd repo) w))); [now split|].
  destruct (snd (fst (hostExec (listCmd repo) _))); now split.
Qed.

Lemma fetchBranchesToUpdate_nonempty (repo : string) (w : World)
      (selection : list string) :
  value (fetchBranchesToUpdate cfg repo w) = Ok selection -> selection <> [].
Proof.
  rewrite fetchBranchesToUpdate_run. cbv zeta.
  destruct (snd (fst (hostExec (fetchCmd repo) w))); [discriminate|].
  destruct (snd (fst (hostExec (listCmd repo) _))); [discriminate|].
  unfold value; simpl.
  destruct (collectBranches cfg _); [discriminate|].
  intros E; injection E as <-. discriminate.
Qed.

(** A run that enters the loop: its log is a part without outcome or
    checkout, then the loop, then the report. *)
Lemma entersLoop_run (repository : string) (w w1 : World)
      (selection : list string) :
  entersLoop cfg repository w = Some (selection, w1) ->
  selection <> [] /\
  exists before,
    outcomes before = [] /\ checkouts repository before = [] /\
    let u := updateBranches repository selection [] w1 in
    updateRepository cfg repository w =
    (None,
     before ++ trace u ++ trace (report repository selection (value u) (after u)),
     after u).
Proof.
  unfold entersLoop. rewrite updateRepository_run, spinnerStart_run. cbv zeta.
  unfold value at 1, after at 1; simpl fst; simpl snd.
  destruct (fst (hostSpinnerStart repository w)); simpl liftErr; [discriminate|].
  destruct (value (stashIfDirty cfg repository _)) eqn:Ed; [discriminate|].
  destruct (value (fetchBranchesToUpdate cfg repository _)) as [sel|e] eqn:Ef;
    [|discriminate].
  intros E; injection E as <- <-.
  split; [exact (fetchBranchesToUpdate_nonempty _ _ _ Ef)|].
  set (d := stashIfDirty cfg repository (snd (hostSpinnerStart repository w))) in *.
  set (f := fetchBranchesToUpdate cfg repository (after d)) in *.
  exists (SpinnerStart repository :: trace d ++ trace f).
  destruct (stashIfDirty_quiet repository (snd (hostSpinnerStart repository w)))
    as [Od Cd].
  destruct (fetchBranchesToUpdate_quiet repository (after d)) as [Of Cf].
  fold d in Od, Cd. fold f in Of, Cf.
  split; [|split].
  - change (SpinnerStart repository :: ?t) with ([SpinnerStart repository] ++ t).
    rewrite !outcomes_app, Od, Of. reflexivity.
  - change (SpinnerStart repository :: ?t) with ([SpinnerStart repository] ++ t).
    rewrite !checkouts_app, Cd, Cf. reflexivity.
  - cbv zeta. rewrite <- app_comm_cons, <- app_assoc. reflexivity.
Qed.

Lemma entersLoop_outcomes (repository : string) (w w1 : World)
      (selection : list string) :
  entersLoop cfg repository w = Some (selection, w1) ->
  outcomes (trace (updateRepository cfg repository w))
  = [Spec.aggregate selection (branchResults repository selection w1)].
Proof.
  intros Hin. destruct (entersLoop_run _ _ _ _ Hin) as (_ & before & Ob & _ & E).
  cbv zeta in E. rewrite E. unfold trace at 1; simpl snd.
  rewrite !outcomes_app, Ob, updateBranches_outcomes, updateBranches_value.
  simpl app. apply report_outcomes, branchResults_length.
Qed.

Lemma entersLoop_checkouts (repository : string) (w w1 : World)
      (selection : list string) :
  entersLoop cfg repository w = Some (selection, w1) ->
  checkouts repository (trace (updateRepository cfg repository w)) = selection.
Proof.
  intros Hin. destruct (entersLoop_run _ _ _ _ Hin) as (_ & before & _ & Cb & E).
  cbv zeta in E. rewrite E. unfold trace at 1; simpl snd.
  rewrite !checkouts_app, Cb, updateBranches_checkouts. simpl app.
  destruct (report_run repository selection
              (value (updateBranches repository selection [] w1))
              (after (updateBranches repository selection [] w1)))
    as (e & -> & He).
  unfold trace; simpl. destruct e; simpl in *; try (now rewrite app_nil_r);
    congruence.
Qed.

(** *** Which events a step can log *)

Lemma stashIfDirty_events (repo : string) (w : World) (e : Event) :
  In e (trace (stashIfDirty cfg repo w)) ->
  e = Exec (statusCmd repo) \/ e = Exec (stashCmd repo).
Proof.
  rewrite stashIfDirty_run. cbv zeta.
  destruct (snd (fst (hostExec (statusCmd repo) w)));
    [simpl; intuition congruence|].
  destruct (Nat.eqb _ 0); [simpl; intuition congruence|].
  destruct (stashChanges cfg); simpl; intuition congruence.
Qed.

Lemma fetchBranchesToUpdate_events (repo : string) (w : World) (e : Event) :
  In e (trace (fetchBranchesToUpdate cfg repo w)) ->
  e = Exec (fetchCmd repo) \/ e = Exec (listCmd repo).
Proof.
  rewrite fetchBranchesToUpdate_run. cbv zeta.
  destruct (snd (fst (hostExec (fetchCmd repo) w)));
    [simpl; intuition congruence|].
  destruct (snd (fst (hostExec (listCmd repo) _))); simpl; intuition congruence.
Qed.

Lemma updateBranch_events (repo branch : string) (w : World) (e : Event) :
  In e (trace (updateBranch repo branch w)) ->
  e = Exec (checkoutCmd repo branch) \/ e = Exec (pullCmd repo).
Proof.
  rewrite updateBranch_run. cbv zeta.
  destruct (snd (fst (hostExec (checkoutCmd repo branch) w)));
    simpl; intuition congruence.
Qed.

Lemma updateBranches_events (repo : string) (branches failed : list string)
      (w : World) (e : Event) :
  In e (trace (updateBranches repo branches failed w)) ->
  (exists branch, e = VizUpdateText branch repo)
  \/ (exists branch, e = Exec (checkoutCmd repo branch))
  \/ e = Exec (pullCmd repo).
Proof.
  revert failed w; induction branches as [|b bs IH]; intros failed w.
  - simpl. tauto.
  - rewrite updateBranches_step. cbv zeta. unfold trace at 1; simpl snd.
    intros [<-|Hin]; [left; now exists b|].
    apply in_app_or in Hin as [Hin|Hin].
    + apply updateBranch_events in Hin as [->| ->];
        [right; left; now exists b | right; right; reflexivity].
    + exact (IH _ _ Hin).
Qed.

Lemma report_events (repository : string) (selected failed : list string)
      (w : World) (e : Event) :
  In e (trace (report repository selected failed w)) -> outcomeOf e <> [].
Proof.
  destruct (report_run repository selected failed w) as (e' & -> & He).
  unfold trace; simpl. intros [<-|[]]. exact He.
Qed.

(** Every event of a run of [updateRepository]: the spinner start, the
    five kinds of git call in that repository, the progress text, and
    the closing mark. *)
Lemma updateRepository_events (repository : string) (w : World) (e : Event) :
  In e (trace (updateRepository cfg repository w)) ->
  e = SpinnerStart repository
  \/ e = Exec (statusCmd repository) \/ e = Exec (stashCmd repository)
  \/ e = Exec (fetchCmd repository) \/ e = Exec (listCmd repository)
  \/ (exists branch, e = Exec (checkoutCmd repository branch))
  \/ e = Exec (pullCmd repository)
  \/ (exists branch, e = VizUpdateText branch repository)
  \/ outcomeOf e <> [].
Proof.
  rewrite updateRepository_run. cbv zeta.
  assert (Hd : forall w', In e (trace (stashIfDirty cfg repository w')) ->
               e = Exec (statusCmd repository) \/ e = Exec (stashCmd repository))
    by (intros w'; apply stashIfDirty_events).
  assert (Hf : forall w', In e (trace (fetchBranchesToUpdate cfg repository w')) ->
               e = Exec (fetchCmd repository) \/ e = Exec (listCmd repository))
    by (intros w'; apply fetchBranchesToUpdate_events).
  destruct (fst (hostSpinnerStart repository w)).
  { unfold trace; simpl. intuition. }
  destruct (value (stashIfDirty cfg repository _)) as [err|].
  { unfold trace at 1; simpl snd. intros [<-|Hin]; [now left|].
    apply in_app_or in Hin as [Hin|[<-|[]]].
    - apply Hd in Hin. tauto.
    - do 8 right. unfold skipOrFail.
      destruct (errors_Is err errStashNotAllowed); discriminate. }
  destruct (value (fetchBranchesToUpdate cfg repository _)) as [sel|err].
  - unfold trace at 1; simpl snd. intros [<-|Hin]; [now left|].
    apply in_app_or in Hin as [Hin|Hin]; [apply Hd in Hin; tauto|].
    apply in_app_or in Hin as [Hin|Hin]; [apply Hf in Hin; tauto|].
    apply in_app_or in Hin as [Hin|Hin].
    + apply updateBranches_events in Hin. tauto.
    + apply report_events in Hin. tauto.
  - unfold trace at 1; simpl snd. intros [<-|Hin]; [now left|].
    apply in_app_or in Hin as [Hin|Hin]; [apply Hd in Hin; tauto|].
    apply in_app_or in Hin as [Hin|[<-|[]]]; [apply Hf in Hin; tauto|].
    do 8 right. unfold skipOrFail.
    destruct (errors_Is err errNoBranch); discriminate.
Qed.

(** Only the call itself starts a spinner, once, under the name of the
    repository. *)
Lemma updateRepository_started (repository : string) (w : World) :
  started (trace (updateRepository cfg repository w)) = [repository].
Proof.
  assert (Hnone : forall t,
             (forall e, In e t -> forall text, e <> SpinnerStart text) ->
             started t = []).
  { induction t as [|e t IH]; intros Hall; [reflexivity|].
    unfold started in *; simpl.
    rewrite IH by (intros; apply Hall; now right).
    destruct e; try reflexivity. exfalso. eapply Hall; [now left|reflexivity]. }
  rewrite updateRepository_run. cbv zeta.
  destruct (fst (hostSpinnerStart repository w)); [reflexivity|].
  destruct (value (stashIfDirty cfg repository _)) as [err|] eqn:Ed.
  { unfold trace at 1; simpl snd.
    change (started (SpinnerStart repository :: ?t)) with (repository :: started t).
    f_equal. apply Hnone.
    intros e Hin text. apply in_app_or in Hin as [Hin|[<-|[]]].
    - apply stashIfDirty_events in Hin as [->| ->]; discriminate.
    - unfold skipOrFail. destruct (errors_Is _ _); discriminate. }
  destruct (value (fetchBranchesToUpdate cfg repository _)) as [sel|err].
  - unfold trace at 1; simpl snd.
    change (started (SpinnerStart repository :: ?t)) with (repository :: started t).
    f_equal. apply Hnone.
    intros e Hin text.
    apply in_app_or in Hin as [Hin|Hin];
      [apply stashIfDirty_events in Hin as [->| ->]; discriminate|].
    apply in_app_or in Hin as [Hin|Hin];
      [apply fetchBranchesToUpdate_events in Hin as [->| ->]; discriminate|].
    apply in_app_or in Hin as [Hin|Hin].
    + apply updateBranches_events in Hin as [[b ->]|[[b ->]| ->]]; discriminate.
    + apply report_events in Hin. intros ->. now apply Hin.
  - unfold trace at 1; simpl snd.
    change (started (SpinnerStart repository :: ?t)) with (repository :: started t).
    f_equal. apply Hnone.
    intros e Hin text.
    apply in_app_or in Hin as [Hin|Hin];
      [apply stashIfDirty_events in Hin as [->| ->]; discriminate|].
    apply in_app_or in Hin as [Hin|[<-|[]]];
      [apply fetchBranchesToUpdate_events in Hin as [->| ->]; discriminate|].
    unfold skipOrFail. destruct (errors_Is _ _); discriminate.
Qed.

(** *** All repositories *)

Lemma updateAll_step (repo : string) (rest : list string) (w : World) :
  updateAll cfg (repo :: rest) w =
  let r := updateRepository cfg repo w in
  let k := updateAll cfg rest (after r) in
  (tt, trace r ++ trace k, after k).
Proof.
  simpl. rewrite bind_run. cbv zeta.
  destruct (value (updateAll cfg rest _)). reflexivity.
Qed.

Lemma updateAll_started (repositories : list string) (w : World) :
  started (trace (updateAll cfg repositories w)) = repositories.
Proof.
  revert w; induction repositories as [|repo rest IH]; intros w.
  - reflexivity.
  - rewrite updateAll_step. cbv zeta. unfold trace at 1; simpl snd.
    rewrite started_app, updateRepository_started, IH. reflexivity.
Qed.

(** *** When the stash runs *)

Lemma length_zero_iff (s : string) : String.length s = 0 <-> s = ""%string.
Proof. destruct s; simpl; split; congruence. Qed.

Lemma stashIfDirty_stash_iff (repo : string) (w : World) :
  In (Exec (stashCmd repo)) (trace (stashIfDirty cfg repo w)) <->
  snd (fst (hostExec (statusCmd repo) w)) = None
  /\ fst (fst (hostExec (statusCmd repo) w)) <> ""%string
  /\ stashChanges cfg = true.
Proof.
  rewrite stashIfDirty_run. cbv zeta.
  destruct (snd (fst (hostExec (statusCmd repo) w))).
  { unfold trace; simpl. split; [intros [E|[]]; discriminate | intros [E _]; discriminate]. }
  destruct (Nat.eqb_spec (String.length (fst (fst (hostExec (statusCmd repo) w)))) 0)
    as [E|E].
  { apply length_zero_iff in E. unfold trace; simpl.
    split; [intros [C|[]]; discriminate | intros (_ & C & _); contradiction]. }
  rewrite length_zero_iff in E.
  destruct (stashChanges cfg); unfold trace; simpl.
  - split; [now intros _ | intros _; right; now left].
  - split; [intros [C|[]]; discriminate | intros (_ & _ & C); discriminate].
Qed.

Lemma stash_only_from_stashIfDirty (repository : string) (w : World) :
  In (Exec (stashCmd repository)) (trace (updateRepository cfg repository w)) ->
  fst (hostSpinnerStart repository w) = None
  /\ In (Exec (stashCmd repository))
        (trace (stashIfDirty cfg repository (snd (hostSpinnerStart repository w)))).
Proof.
  rewrite updateRepository_run. cbv zeta.
  destruct (fst (hostSpinnerStart repository w)).
  { unfold trace; simpl. intros [C|[]]; discriminate. }
  intros Hin. split; [reflexivity|].
  destruct (value (stashIfDirty cfg repository _)) as [err|].
  { unfold trace at 1 in Hin; simpl snd in Hin.
    destruct Hin as [C|Hin]; [discriminate|].
    apply in_app_or in Hin as [Hin|[C|[]]]; [exact Hin|].
    unfold skipOrFail in C. destruct (errors_Is _ _); discriminate. }
  destruct (value (fetchBranchesToUpdate cfg repository _)) as [sel|err];
    unfold trace at 1 in Hin; simpl snd in Hin;
    (destruct Hin as [C|Hin]; [discriminate|]);
    (apply in_app_or in Hin as [Hin|Hin]; [exact Hin|]); exfalso.
  - apply in_app_or in Hin as [Hin|Hin];
      [apply fetchBranchesToUpdate_events in Hin as [C|C]; discriminate|].
    apply in_app_or in Hin as [Hin|Hin].
    + apply updateBranches_events in Hin as [[b C]|[[b C]|C]]; discriminate.
    + apply report_events in Hin. now apply Hin.
  - apply in_app_or in Hin as [Hin|[C|[]]];
      [apply fetchBranchesToUpdate_events in Hin as [C|C]; discriminate|].
    unfold skipOrFail in C. destruct (errors_Is _ _); discriminate.
Qed.

(** *** The threshold check and the loop of [RunE] *)

Lemma runRepositories_passed (repositories : list string) (w : World) :
  length repositories <= warnThreshold
  \/ fst (hostConfirm (length repositories) w) = (true, None) ->
  exists w1,
    runRepositories cfg repositories w =
    (None,
     (if Nat.ltb warnThreshold (length repositories)
      then [ConfirmShow (length repositories)] else [])
       ++ trace (updateAll cfg repositories w1),
     after (updateAll cfg repositories w1)).
Proof.
  intros Hpassed. unfold runRepositories.
  destruct (Nat.ltb_spec warnThreshold (length repositories)) as [L|L].
  - destruct Hpassed as [C|Hok]; [lia|].
    exists (snd (hostConfirm (length repositories) w)).
    rewrite bind_run, confirmShow_run. unfold value at 2, after at 2; simpl fst.
    rewrite Hok. simpl. rewrite bind_run. unfold trace at 1; simpl.
    unfold value, after at 1; simpl. now rewrite app_nil_r.
  - exists w. rewrite bind_run. unfold value, after at 1; simpl.
    now rewrite app_nil_r.
Qed.

(** *** The skip condition *)

Lemma skipped_iff (line : string) :
  skipped line = true <-> Spec.noiseSpace line.
Proof.
  unfold skipped, Spec.noiseSpace.
  rewrite !orb_true_iff, String.eqb_eq, !HasPrefix_iff, Contains_iff.
  tauto.
Qed.

Lemma filtered_discards (branches : string) :
  Spec.discardsExactly Spec.noiseSpace (Split branches newline) (filtered branches).
Proof.
  intros line Hin. unfold filtered. rewrite filter_In, <- skipped_iff.
  destruct (skipped line); simpl; intuition congruence.
Qed.

(** *** How often the loop pulls a branch *)






(** *** Discovery *)

Lemma expandPathWithTilde_started (rootDir : string) (w : World) :
  started (trace (expandPathWithTilde rootDir w)) = [].
Proof.
  unfold expandPathWithTilde, userCurrent. rewrite bind_run.
  destruct (hostUserCurrent w) as [[home err] w']. rewrite trace_of, value_of.
  destruct (liftErr err); [reflexivity|].
  destruct (rootDir =? "~")%string; [reflexivity|].
  destruct (HasPrefix rootDir "~/"); reflexivity.
Qed.

Lemma findRepositories_started (rootDir : string) (w : World) :
  started (trace (findRepositories rootDir w)) = [].
Proof.
  unfold findRepositories. rewrite bind_run, Output_run, trace_of, value_of.
  destruct (liftErr _); [reflexivity|].
  destruct (Nat.eqb _ 0); reflexivity.
Qed.

(** A run of [RunE] that gets as far as the threshold check. *)
Lemma discovered_run (w w1 : World) (repositories : list string) :
  discovered cfg w = Some (repositories, w1) ->
  exists before,
    started before = ["Finding repositories"%string] /\
    let r := runRepositories cfg repositories w1 in
    RunE cfg w = (value r, before ++ trace r, after r).
Proof.
  unfold discovered, RunE. intros Hd.
  rewrite bind_run.
  set (x := expandPathWithTilde (pathPrefix cfg) w) in *.
  destruct (value x) as [rootDir|e]; [|discriminate].
  rewrite bind_run.
  set (sp := spinnerStart "Finding repositories" (after x)) in *.
  destruct (value sp); [discriminate|].
  rewrite bind_run.
  set (f := findRepositories rootDir (after sp)) in *.
  destruct (value f) as [repos|e]; [|discriminate].
  injection Hd as <- <-.
  rewrite bind_run. unfold emit at 1 2 3. rewrite !value_of, !trace_of, !after_of.
  exists (trace x ++ trace sp ++ trace f ++ [SpinnerFound (length repos)]).
  split.
  - rewrite !started_app. unfold x, f.
    rewrite expandPathWithTilde_started, findRepositories_started.
    unfold sp. rewrite spinnerStart_run. reflexivity.
  - cbv zeta. now rewrite <- !app_assoc.
Qed.

(** *** Which errors a step can return *)

Lemma stashIfDirty_errors (repo : string) (w : World) (e : error) :
  value (stashIfDirty cfg repo w) = Some e ->
  e = errStashNotAllowed \/ exists code, e = HostError code.
Proof.
  rewrite stashIfDirty_run. cbv zeta.
  destruct (snd (fst (hostExec (statusCmd repo) w))) as [code|].
  { rewrite value_of. intros E; injection E as <-. right. now exists code. }
  destruct (Nat.eqb _ 0); [rewrite value_of; discriminate|].
  destruct (stashChanges cfg); rewrite value_of.
  - destruct (snd (fst (hostExec (stashCmd repo) _))) as [code|];
      [|discriminate].
    intros E; injection E as <-. right. now exists code.
  - intros E; injection E as <-. now left.
Qed.

Lemma fetchBranchesToUpdate_errors (repo : string) (w : World) (e : error) :
  value (fetchBranchesToUpdate cfg repo w) = Err e ->
  e = errNoBranch \/ exists code, e = HostError code.
Proof.
  rewrite fetchBranchesToUpdate_run. cbv zeta.
  destruct (snd (fst (hostExec (fetchCmd repo) w))) as [code|].
  { rewrite value_of. intros E; injection E as <-. right. now exists code. }
  destruct (snd (fst (hostExec (listCmd repo) _))) as [code|]; rewrite value_of.
  { intros E; injection E as <-. right. now exists code. }
  destruct (collectBranches cfg _); [|discriminate].
  intros E; injection E as <-. now left.
Qed.

(** *** Commands in a log *)

Lemma commands_join (t1 t2 : list Event) :
  commands (t1 ++ t2) = commands t1 ++ commands t2.
Proof. apply flat_map_app. Qed.

Lemma commands_In (c : Cmd) (t : list Event) :
  In c (commands t) <-> In (Exec c) t.
Proof.
  unfold commands. rewrite in_flat_map. split.
  - intros (e & Hin & Hc). destruct e; simpl in Hc; try contradiction.
    destruct Hc as [<-|[]]. exact Hin.
  - intros Hin. exists (Exec c). split; [exact Hin | now left].
Qed.

Lemma updateBranches_commands (repo : string) (branches failed : list string)
      (w : World) (c : Cmd) :
  In c (commands (trace (updateBranches repo branches failed w))) ->
  c = pullCmd repo \/ exists branch, In branch branches /\ c = checkoutCmd repo branch.
Proof.
  revert failed w; induction branches as [|b bs IH]; intros failed w.
  - simpl. tauto.
  - rewrite updateBranches_step. cbv zeta. rewrite trace_of.
    change (VizUpdateText b repo :: ?t) with ([VizUpdateText b repo] ++ t).
    rewrite !commands_join. simpl app. intros Hin.
    apply in_app_or in Hin as [Hin|Hin].
    + apply commands_In, updateBranch_events in Hin as [E|E]; injection E as ->.
      * right. exists b. split; [now left | reflexivity].
      * now left.
    + apply IH in Hin as [->|(b' & Hb' & ->)]; [now left|].
      right. exists b'. split; [now right | reflexivity].
Qed.

Lemma report_commands (repository : string) (selected failed : list string)
      (w : World) :
  commands (trace (report repository selected failed w)) = [].
Proof.
  unfold report.
  destruct (Nat.eqb _ _); [reflexivity|]. now destruct (Nat.ltb _ _).
Qed.

(** The log of the steps before the loop, exactly. *)
Lemma entersLoop_commands (repository : string) (w w1 : World)
      (selection : list string) :
  entersLoop cfg repository w = Some (selection, w1) ->
  exists pre,
    (pre = [statusCmd repository]
     \/ pre = [statusCmd repository; stashCmd repository])
    /\ commands (trace (updateRepository cfg repository w))
       = pre ++ [fetchCmd repository; listCmd repository]
             ++ commands (trace (updateBranches repository selection [] w1)).
Proof.
  unfold entersLoop. rewrite updateRepository_run, spinnerStart_run. cbv zeta.
  rewrite value_of, after_of.
  destruct (fst (hostSpinnerStart repository w)); cbn [liftErr option_map];
    [discriminate|].
  set (d := stashIfDirty cfg repository (snd (hostSpinnerStart repository w))).
  assert (Hd : value d = None ->
               commands (trace d) = [statusCmd repository]
               \/ commands (trace d) = [statusCmd repository; stashCmd repository]).
  { unfold d. rewrite stashIfDirty_run. cbv zeta.
    destruct (snd (fst (hostExec (statusCmd repository) _))); [discriminate|].
    destruct (Nat.eqb _ 0); [now left|].
    destruct (stashChanges cfg); [now right | discriminate]. }
  destruct (value d); [discriminate|]. specialize (Hd eq_refl).
  set (f := fetchBranchesToUpdate cfg repository (after d)).
  assert (Hf : forall sel, value f = Ok sel ->
               commands (trace f) = [fetchCmd repository; listCmd repository]).
  { intros sel. unfold f. rewrite fetchBranchesToUpdate_run. cbv zeta.
    destruct (snd (fst (hostExec (fetchCmd repository) _))); [discriminate|].
    destruct (snd (fst (hostExec (listCmd repository) _))); [discriminate|].
    reflexivity. }
  destruct (value f) as [sel|e]; [|discriminate].
  specialize (Hf sel eq_refl).
  intros E; injection E as <- <-.
  exists (commands (trace d)). split; [exact Hd|].
  rewrite trace_of.
  change (SpinnerStart repository :: ?t) with ([SpinnerStart repository] ++ t).
  rewrite !commands_join, Hf, report_commands, app_nil_r. reflexivity.
Qed.

Lemma fetchBranchesToUpdate_first (repo : string) (w : World) :
  exists more,
    commands (trace (fetchBranchesToUpdate cfg repo w)) = fetchCmd repo :: more.
Proof.
  rewrite fetchBranchesToUpdate_run. cbv zeta.
  destruct (snd (fst (hostExec (fetchCmd repo) w))); [now exists []|].
  destruct (snd (fst (hostExec (listCmd repo) _))); now exists [listCmd repo].
Qed.

(** What [updateRepository] does once [stashIfDirty] has returned
    without error: the part of its log after the stash step holds no
    stash, and begins with the fetch. *)
Lemma updateRepository_after_stash (repository : string) (w : World) :
  fst (hostSpinnerStart repository w) = None ->
  let d := stashIfDirty cfg repository (snd (hostSpinnerStart repository w)) in
  value d = None ->
  exists later,
    trace (updateRepository cfg repository w)
    = SpinnerStart repository :: trace d ++ later
    /\ ~ In (Exec (stashCmd repository)) later
    /\ exists more, commands later = fetchCmd repository :: more.
Proof.
  intros Hsp d Hd. rewrite updateRepository_run. cbv zeta. rewrite Hsp.
  fold d. rewrite Hd.
  set (f := fetchBranchesToUpdate cfg repository (after d)).
  destruct (fetchBranchesToUpdate_first repository (after d)) as [more Hmore].
  fold f in Hmore.
  assert (Hf : ~ In (Exec (stashCmd repository)) (trace f)).
  { intros Hin. apply fetchBranchesToUpdate_events in Hin as [C|C]; discriminate. }
  destruct (value f) as [sel|e]; rewrite trace_of.
  - eexists. split; [reflexivity|]. split.
    + intros Hin. apply in_app_or in Hin as [Hin|Hin]; [now apply Hf|].
      apply in_app_or in Hin as [Hin|Hin].
      * apply updateBranches_events in Hin as [[b C]|[[b C]|C]]; discriminate.
      * apply report_events in Hin. now apply Hin.
    + rewrite commands_join, Hmore. simpl. eexists. reflexivity.
  - eexists. split; [reflexivity|]. split.
    + intros Hin. apply in_app_or in Hin as [Hin|[C|[]]]; [now apply Hf|].
      unfold skipOrFail in C. destruct (errors_Is _ _); discriminate.
    + rewrite commands_join, Hmore. simpl. eexists. reflexivity.
Qed.

(** *** Outcomes and commands of whole runs *)

Lemma updateRepository_outcome_count (repository : string) (w : World) :
  length (outcomes (trace (updateRepository cfg repository w)))
  = match fst (hostSpinnerStart repository w) with Some _ => 0 | None => 1 end.
Proof.
  rewrite updateRepository_run. cbv zeta.
  destruct (fst (hostSpinnerStart repository w)); [reflexivity|].
  destruct (stashIfDirty_quiet repository (snd (hostSpinnerStart repository w)))
    as [Od _].
  destruct (value (stashIfDirty cfg repository _)) as [e|].
  { rewrite trace_of.
    change (SpinnerStart repository :: ?t) with ([SpinnerStart repository] ++ t).
    rewrite !outcomes_app, Od. unfold skipOrFail.
    destruct (errors_Is e errStashNotAllowed); reflexivity. }
  destruct (fetchBranchesToUpdate_quiet repository
              (after (stashIfDirty cfg repository
                        (snd (hostSpinnerStart repository w))))) as [Of _].
  destruct (value (fetchBranchesToUpdate cfg repository _)) as [sel|e];
    rewrite trace_of;
    change (SpinnerStart repository :: ?t) with ([SpinnerStart repository] ++ t);
    rewrite !outcomes_app, Od, Of.
  - rewrite updateBranches_outcomes. simpl app.
    destruct (report_run repository sel
                (value (updateBranches repository sel []
                          (after (fetchBranchesToUpdate cfg repository
                             (after (stashIfDirty cfg repository
                                (snd (hostSpinnerStart repository w))))))))
                (after (updateBranches repository sel []
                          (after (fetchBranchesToUpdate cfg repository
                             (after (stashIfDirty cfg repository
                                (snd (hostSpinnerStart repository w)))))))))
      as (ev & -> & Hev).
    rewrite trace_of. unfold outcomes. simpl. rewrite app_nil_r.
    destruct ev; simpl in *; try congruence; try reflexivity.
    destruct (prefixText =? "SKIPPED")%string; [reflexivity|].
    destruct (prefixText =? " NO-BRANCH ")%string; [reflexivity | congruence].
  - unfold skipOrFail. destruct (errors_Is e errNoBranch); reflexivity.
Qed.

Lemma updateAll_outcome_count (repositories : list string) (w : World) :
  (forall text w', fst (hostSpinnerStart text w') = None) ->
  length (outcomes (trace (updateAll cfg repositories w))) = length repositories.
Proof.
  intros Hspin. revert w; induction repositories as [|repo rest IH]; intros w.
  - reflexivity.
  - rewrite updateAll_step. cbv zeta.
    rewrite trace_of, outcomes_app, length_app, IH,
      updateRepository_outcome_count, Hspin. reflexivity.
Qed.

Lemma updateRepository_commands (repository : string) (w : World) (c : Cmd) :
  In c (commands (trace (updateRepository cfg repository w))) ->
  cmdName c = "git"%string /\ cmdDir c = repository
  /\ exists verb more,
       cmdArgs c = verb :: more
       /\ In verb ["status"; "stash"; "fetch"; "branch"; "checkout"; "pull"]%string.
Proof.
  intros Hin. apply commands_In, updateRepository_events in Hin.
  destruct Hin as [C|[C|[C|[C|[C|[[b C]|[C|[[b C]|C]]]]]]]];
    try discriminate; try (injection C as ->);
    try (split; [reflexivity|split; [reflexivity|]];
         eexists; eexists; split; [reflexivity|]; simpl; tauto).
  exfalso. now apply C.
Qed.

Lemma updateAll_commands (repositories : list string) (w : World) (c : Cmd) :
  In c (commands (trace (updateAll cfg repositories w))) ->
  cmdName c = "git"%string /\ In (cmdDir c) repositories
  /\ exists verb more,
       cmdArgs c = verb :: more
       /\ In verb ["status"; "stash"; "fetch"; "branch"; "checkout"; "pull"]%string.
Proof.
  revert w; induction repositories as [|repo rest IH]; intros w.
  - simpl. tauto.
  - rewrite updateAll_step. cbv zeta. rewrite trace_of, commands_join.
    intros Hin. apply in_app_or in Hin as [Hin|Hin].
    + apply updateRepository_commands in Hin as (Hn & Hd & Hv).
      repeat split; [exact Hn | now left | exact Hv].
    + apply IH in Hin as (Hn & Hd & Hv).
      repeat split; [exact Hn | now right | exact Hv].
Qed.

End Facts.
End CurrentFacts.

(** ** The [repository] struct, step by step *)
Module LegacyFacts.
Import Legacy.
Section Facts.
Context {H : Host}.

Lemma updateRemote_run (r : repository) (w : World) :
  updateRemote r w =
  if remoteUpdated r then ((None, r), [], w)
  else ((liftErr (snd (fst (hostExec (fetchCmd (path r)) w))), r),
        [Exec (fetchCmd (path r))],
        snd (hostExec (fetchCmd (path r)) w)).
Proof.
  unfold updateRemote. destruct (remoteUpdated r); [reflexivity|].
  now rewrite bind_run, Run_run.
Qed.

Lemma method_updateBranch_run (r : repository) (branch : string) (w : World) :
  updateBranch r branch w =
  let co := hostExec (checkoutCmd (path r) branch) w in
  match snd (fst co) with
  | Some code =>
      ((Some (HostError code), r), [Exec (checkoutCmd (path r) branch)], snd co)
  | None =>
      let pl := hostExec (pullCmd (path r)) (snd co) in
      ((liftErr (snd (fst pl)), r),
       [Exec (checkoutCmd (path r) branch); Exec (pullCmd (path r))], snd pl)
  end.
Proof.
  unfold updateBranch, checkoutCmd, pullCmd.
  rewrite bind_run, Run_run. unfold value, after; simpl.
  destruct (snd (fst (hostExec (gitCmd (path r) ["checkout"; branch]) w))); simpl.
  - reflexivity.
  - now rewrite bind_run, Run_run.
Qed.

(** No method assigns a field: the struct a call hands back is the one
    it was given. *)

Lemma IsDirty_keeps (r : repository) (w : World) :
  snd (value (IsDirty r w)) = r.
Proof.
  unfold IsDirty. rewrite bind_run, Output_run. unfold value, after; simpl.
  now destruct (snd (fst (hostExec _ w))).
Qed.

Lemma Stash_keeps (r : repository) (w : World) :
  snd (value (Stash r w)) = r.
Proof. unfold Stash. now rewrite bind_run. Qed.

Lemma updateRemote_keeps (r : repository) (w : World) :
  snd (value (updateRemote r w)) = r.
Proof. rewrite updateRemote_run. now destruct (remoteUpdated r). Qed.

Lemma updateBranch_keeps (r : repository) (branch : string) (w : World) :
  snd (value (updateBranch r branch w)) = r.
Proof.
  rewrite method_updateBranch_run. cbv zeta. now destruct (snd (fst (hostExec _ w))).
Qed.

Lemma GetAllBranches_keeps (r : repository) (w : World) :
  snd (value (GetAllBranches r w)) = r.
Proof.
  unfold GetAllBranches. rewrite bind_run.
  pose proof (updateRemote_keeps r w) as Hk.
  destruct (value (updateRemote r w)) as [err r']. simpl in Hk; subst r'.
  unfold value at 1; simpl fst.
  destruct err; [reflexivity|].
  rewrite bind_run, Output_run. unfold value, after; simpl.
  now destruct (snd (fst (hostExec _ _))).
Qed.

Lemma updateEach_keeps (r : repository) (brnaches : list string) (w : World) :
  snd (value (updateEach r brnaches w)) = r.
Proof.
  revert w; induction brnaches as [|b bs IH]; intros w; [reflexivity|].
  simpl. rewrite bind_run.
  pose proof (updateBranch_keeps r b w) as Hk.
  destruct (value (updateBranch r b w)) as [err r']. simpl in Hk; subst r'.
  unfold value at 1; simpl fst.
  destruct err; [reflexivity|]. apply IH.
Qed.

Lemma Update_keeps (r : repository) (brnaches : list string) (w : World) :
  snd (value (Update r brnaches w)) = r.
Proof.
  unfold Update. rewrite bind_run.
  pose proof (updateRemote_keeps r w) as Hk.
  destruct (value (updateRemote r w)) as [err r']. simpl in Hk; subst r'.
  unfold value at 1; simpl fst.
  destruct err; [reflexivity|]. apply updateEach_keeps.
Qed.

Lemma call_keeps (c : Call) (r : repository) (w : World) :
  value (call c r w) = r.
Proof.
  destruct c; simpl; rewrite bind_run; unfold value at 1; simpl fst.
  - pose proof (IsDirty_keeps r w) as Hk.
    now destruct (value (IsDirty r w)) as [res r'].
  - pose proof (Stash_keeps r w) as Hk.
    now destruct (value (Stash r w)) as [res r'].
  - pose proof (GetAllBranches_keeps r w) as Hk.
    now destruct (value (GetAllBranches r w)) as [res r'].
  - pose proof (Update_keeps r brnaches w) as Hk.
    now destruct (value (Update r brnaches w)) as [res r'].
  - pose proof (updateRemote_keeps r w) as Hk.
    now destruct (value (updateRemote r w)) as [res r'].
  - pose proof (updateBranch_keeps r branch w) as Hk.
    now destruct (value (updateBranch r branch w)) as [res r'].
Qed.

Lemma calls_keep (cs : list Call) (r : repository) (w : World) :
  value (calls cs r w) = r.
Proof.
  revert r w; induction cs as [|c cs IH]; intros r w; [reflexivity|].
  simpl. rewrite bind_run. unfold value at 1; simpl fst.
  rewrite call_keeps. apply IH.
Qed.

(** [Update] gives up at the first branch that fails. *)
Lemma updateEach_stops (r : repository) (branch : string) (rest : list string)
      (w : World) (e : error) :
  fst (value (updateBranch r branch w)) = Some e ->
  updateEach r (branch :: rest) w =
  ((Some e, r), trace (updateBranch r branch w), after (updateBranch r branch w)).
Proof.
  intros Hfail. simpl. rewrite bind_run.
  pose proof (updateBranch_keeps r branch w) as Hk.
  destruct (value (updateBranch r branch w)) as [err r']. simpl in Hk, Hfail.
  subst r' err. unfold value, trace, after; simpl. now rewrite app_nil_r.
Qed.

Lemma calls_step (c : Call) (cs : list Call) (r : repository) (w : World) :
  calls (c :: cs) r w =
  let k := calls cs r (after (call c r w)) in
  (value k, trace (call c r w) ++ trace k, after k).
Proof. simpl. rewrite bind_run, call_keeps. reflexivity. Qed.

Lemma call_updateRemote_trace (r : repository) (w : World) :
  remoteUpdated r = false ->
  trace (call CallUpdateRemote r w) = [Exec (fetchCmd (path r))].
Proof.
  intros Hoff. simpl. rewrite bind_run. unfold trace at 1; simpl snd.
  rewrite updateRemote_run, Hoff. unfold trace at 1; simpl snd.
  destruct (value _) as [res r']. reflexivity.
Qed.

(** *** The methods, unfolded *)



Lemma collectBranches_filter (branches : string) :
  collectBranches branches
  = filter (fun line => negb (line =? "")%string) (Split branches newline).
Proof.
  unfold collectBranches.
  rewrite <- (flat_map_singleton (filter _ _)), <- flat_map_filter.
  change (flat_map ?f (Split branches newline))
    with ([] ++ flat_map f (Split branches newline)).
  rewrite <- fold_left_appending.
  apply fold_left_ext_step; intros acc line.
  destruct (line =? "")%string; simpl; [now rewrite app_nil_r | reflexivity].
Qed.

Lemma GetAllBranches_run (r : repository) (w : World) :
  remoteUpdated r = false ->
  GetAllBranches r w =
  let fe := hostExec (fetchCmd (path r)) w in
  match snd (fst fe) with
  | Some code => ((Err (HostError code), r), [Exec (fetchCmd (path r))], snd fe)
  | None =>
      let li := hostExec (plainListCmd (path r)) (snd fe) in
      ((match snd (fst li) with
        | Some code => Err (HostError code)
        | None => Ok (collectBranches (fst (fst li)))
        end, r),
       [Exec (fetchCmd (path r)); Exec (plainListCmd (path r))], snd li)
  end.
Proof.
  intros Hoff. unfold GetAllBranches.
  rewrite bind_run, updateRemote_run, Hoff, value_of, trace_of, after_of.
  cbv zeta.
  destruct (snd (fst (hostExec (fetchCmd (path r)) w))); [reflexivity|].
  cbn [liftErr option_map].
  rewrite bind_run, Output_run, value_of, trace_of, after_of.
  cbn [fst snd]. unfold plainListCmd.
  destruct (snd (fst (hostExec _ (snd (hostExec _ w))))); reflexivity.
Qed.

(** *** [Update]: a prefix of the branches *)





(** *** Which events the methods can log *)



(** *** The earlier [updateRepository], unfolded *)

Variable cfg : Config.








(** *** The earlier [updateRepository]: branches and fetches *)




End Facts.
End LegacyFacts.

(** ** Discovery, step by step *)
Module DiscoveryFacts.
Import Current.
Section Facts.
Context {H : Host}.
Variable cfg : Config.

Lemma flat_map_one {A B} (f : A -> B) (l : list A) :
  flat_map (fun x => [f x]) l = map f l.
Proof. induction l as [|x l IH]; simpl; [reflexivity | now rewrite IH]. Qed.

Lemma collectRepositories_filter (found : string) :
  collectRepositories found
  = map (fun path => TrimSuffix path "/.git")
        (filter (fun path => HasSuffix path ".git") (Split found newline)).
Proof.
  unfold collectRepositories.
  rewrite <- flat_map_one, <- flat_map_filter.
  change (flat_map ?f (Split found newline))
    with ([] ++ flat_map f (Split found newline)).
  rewrite <- fold_left_appending.
  apply fold_left_ext_step; intros acc path.
  destruct (HasSuffix path ".git"); simpl; [reflexivity | now rewrite app_nil_r].
Qed.

Lemma collectRepositories_foundAt (roots : list string) :
  (forall root, In root roots -> singleLine root = true) ->
  collectRepositories (foundAt roots) = roots.
Proof.
  intros Hlines. rewrite collectRepositories_filter. unfold foundAt.
  rewrite Split_unlines.
  - rewrite filter_app. simpl filter at 2. rewrite app_nil_r.
    clear Hlines. induction roots as [|r rs IH]; [reflexivity|].
    simpl map at 2. simpl filter.
    replace (r ++ "/.git")%string with ((r ++ "/") ++ ".git")%string
      by (now rewrite append_assoc).
    rewrite HasSuffix_app. simpl map.
    replace ((r ++ "/") ++ ".git")%string with (r ++ "/.git")%string
      by (now rewrite append_assoc).
    now rewrite TrimSuffix_app, IH.
  - intros line Hin. apply in_map_iff in Hin as (root & <- & Hroot).
    rewrite singleLine_app, (Hlines _ Hroot). reflexivity.
Qed.

Lemma findRepositories_run (rootDir : string) (w : World) :
  findRepositories rootDir w =
  let dir := if (rootDir =? "")%string then "."%string else rootDir in
  let fo := hostExec (findCmd dir) w in
  match snd (fst fo) with
  | Some code => (Err (HostError code), [Exec (findCmd dir)], snd fo)
  | None =>
      match collectRepositories (fst (fst fo)) with
      | [] =>
          (Ok [],
           [Exec (findCmd dir); Printf "No repositories found in %s\n" [inl dir]],
           snd fo)
      | repositories => (Ok repositories, [Exec (findCmd dir)], snd fo)
      end
  end.
Proof.
  unfold findRepositories. cbv zeta.
  rewrite bind_run, Output_run, value_of, trace_of, after_of.
  destruct (snd (fst (hostExec _ w))); [reflexivity|]. cbn [liftErr option_map snd fst].
  destruct (collectRepositories _); reflexivity.
Qed.

Lemma expandPathWithTilde_run (rootDir : string) (w : World) :
  expandPathWithTilde rootDir w =
  let uc := hostUserCurrent w in
  (match snd (fst uc) with
   | Some code => Err (HostError code)
   | None =>
       if (rootDir =? "~")%string then Ok (fst (fst uc))
       else if HasPrefix rootDir "~/"
            then Ok (hostJoin (fst (fst uc))
                       (substring 2 (String.length rootDir - 2) rootDir))
            else Ok rootDir
   end, [UserCurrent], snd uc).
Proof.
  unfold expandPathWithTilde, userCurrent. rewrite bind_run.
  destruct (hostUserCurrent w) as [[home err] w']. cbv zeta.
  rewrite value_of, trace_of, after_of. cbn [fst snd].
  destruct err; [reflexivity|]. cbn [liftErr option_map].
  destruct (rootDir =? "~")%string; [reflexivity|].
  destruct (HasPrefix rootDir "~/"); reflexivity.
Qed.

(** The prompt is never shown from inside [updateRepository]. *)
Lemma updateAll_prompts (repositories : list string) (w : World) :
  prompts (trace (updateAll cfg repositories w)) = [].
Proof.
  assert (Hnone : forall t,
             (forall e, In e t -> forall n, e <> ConfirmShow n) -> prompts t = []).
  { induction t as [|e t IH]; intros Hall; [reflexivity|].
    unfold prompts in *; simpl.
    rewrite IH by (intros; apply Hall; now right).
    destruct e; try reflexivity. exfalso. eapply Hall; [now left|reflexivity]. }
  revert w; induction repositories as [|repo rest IH]; intros w; [reflexivity|].
  rewrite CurrentFacts.updateAll_step. cbv zeta. rewrite trace_of.
  unfold prompts. rewrite flat_map_app. fold (prompts (trace (updateAll cfg rest
    (after (updateRepository cfg repo w))))). rewrite IH, app_nil_r.
  apply Hnone. intros e Hin n ->.
  apply CurrentFacts.updateRepository_events in Hin.
  destruct Hin as [C|[C|[C|[C|[C|[[b C]|[C|[[b C]|C]]]]]]]]; try discriminate.
  now apply C.
Qed.

Lemma runRepositories_prompts (repositories : list string) (w : World) :
  prompts (trace (runRepositories cfg repositories w))
  = if Nat.ltb warnThreshold (length repositories)
    then [length repositories] else [].
Proof.
  unfold runRepositories.
  destruct (Nat.ltb warnThreshold (length repositories)).
  - rewrite bind_run, confirmShow_run, value_of, trace_of, after_of.
    destruct (liftErr _); [reflexivity|].
    destruct (fst (fst (hostConfirm _ w))); cbn [negb].
    + rewrite bind_run, !trace_of. unfold prompts. rewrite !flat_map_app.
      fold (prompts (trace (updateAll cfg repositories
                              (snd (hostConfirm (length repositories) w))))).
      now rewrite updateAll_prompts.
    + reflexivity.
  - rewrite bind_run, trace_of. unfold prompts. rewrite flat_map_app.
    fold (prompts (trace (updateAll cfg repositories w))).
    now rewrite updateAll_prompts.
Qed.

Lemma runRepositories_refused (repositories : list string) (w : World) :
  warnThreshold < length repositories ->
  fst (hostConfirm (length repositories) w) <> (true, None) ->
  runRepositories cfg repositories w =
  (liftErr (snd (fst (hostConfirm (length repositories) w))),
   [ConfirmShow (length repositories)],
   snd (hostConfirm (length repositories) w)).
Proof.
  intros Hmany Hno. unfold runRepositories.
  apply Nat.ltb_lt in Hmany. rewrite Hmany.
  rewrite bind_run, confirmShow_run, value_of, trace_of, after_of.
  destruct (hostConfirm (length repositories) w) as [[ok err] w'].
  cbn [fst snd] in *.
  destruct err; [reflexivity|]. cbn [liftErr option_map].
  destruct ok; [congruence|]. reflexivity.
Qed.

(** The log of [RunE] up to the threshold check: the user lookup, the
    first spinner, one [find], the message when nothing was found, the
    count. *)
Lemma discovered_before (w w1 : World) (repositories : list string) :
  discovered cfg w = Some (repositories, w1) ->
  exists before,
    started before = ["Finding repositories"%string]
    /\ prompts before = [] /\ outcomes before = []
    /\ (forall c, In c (commands before) -> cmdName c = "find"%string)
    /\ RunE cfg w =
       (value (runRepositories cfg repositories w1),
        before ++ trace (runRepositories cfg repositories w1),
        after (runRepositories cfg repositories w1)).
Proof.
  unfold discovered, RunE. intros Hd.
  rewrite bind_run.
  rewrite expandPathWithTilde_run in *. cbv zeta in *.
  rewrite ?value_of, ?after_of, ?trace_of in *.
  destruct (match snd (fst (hostUserCurrent w)) with
            | Some code => Err (HostError code)
            | None => _
            end) as [rootDir|e]; [|discriminate].
  rewrite bind_run. rewrite spinnerStart_run in *.
  rewrite ?value_of, ?after_of, ?trace_of in *.
  destruct (liftErr (fst (hostSpinnerStart _ _))); [discriminate|].
  rewrite bind_run. rewrite findRepositories_run in *. cbv zeta in *.
  set (dir := if (rootDir =? "")%string then "."%string else rootDir) in *.
  set (fo := hostExec (findCmd dir) _) in *.
  destruct (snd (fst fo)); [discriminate|].
  destruct (collectRepositories (fst (fst fo))) as [|r rs];
    rewrite ?value_of, ?after_of, ?trace_of in *;
    injection Hd as <- <-;
    rewrite bind_run; unfold emit at 1 2 3;
    rewrite !value_of, !trace_of, !after_of.
  - exists [UserCurrent; SpinnerStart "Finding repositories"; Exec (findCmd dir);
            Printf "No repositories found in %s\n" [inl dir]; SpinnerFound 0].
    repeat split; try reflexivity.
    intros c [<-|[]]. reflexivity.
  - exists [UserCurrent; SpinnerStart "Finding repositories"; Exec (findCmd dir);
            SpinnerFound (length (r :: rs))].
    repeat split; try reflexivity.
    intros c [<-|[]]. reflexivity.
Qed.

(** A run of [RunE] that does not get as far as the threshold check
    returns the error that stopped it. *)
Lemma undiscovered_run (w : World) :
  discovered cfg w = None ->
  exists e t,
    value (RunE cfg w) = Some e /\ trace (RunE cfg w) = t
    /\ (forall text, In text (started t) -> text = "Finding repositories"%string)
    /\ prompts t = [] /\ outcomes t = []
    /\ (forall c, In c (commands t) -> cmdName c = "find"%string).
Proof.
  unfold discovered, RunE. intros Hd.
  rewrite bind_run.
  rewrite expandPathWithTilde_run in *. cbv zeta in *.
  rewrite ?value_of, ?after_of, ?trace_of in *.
  destruct (match snd (fst (hostUserCurrent w)) with
            | Some code => Err (HostError code)
            | None => _
            end) as [rootDir|e].
  2:{ exists e, [UserCurrent].
      repeat split; try reflexivity; intros x []. }
  rewrite bind_run. rewrite spinnerStart_run in *.
  rewrite ?value_of, ?after_of, ?trace_of in *.
  destruct (liftErr (fst (hostSpinnerStart _ _))) as [e|].
  { exists e, [UserCurrent; SpinnerStart "Finding repositories"].
    repeat split; try reflexivity.
    - intros text [<-|[]]. reflexivity.
    - intros x []. }
  rewrite bind_run. rewrite findRepositories_run in *. cbv zeta in *.
  set (dir := if (rootDir =? "")%string then "."%string else rootDir) in *.
  set (fo := hostExec (findCmd dir) _) in *.
  destruct (snd (fst fo)) as [code|].
  - exists (HostError code),
      [UserCurrent; SpinnerStart "Finding repositories"; Exec (findCmd dir)].
    rewrite ?value_of, ?trace_of, ?after_of.
    repeat split; try reflexivity.
    + intros text [<-|[]]. reflexivity.
    + intros c [<-|[]]. reflexivity.
  - destruct (collectRepositories (fst (fst fo)));
      rewrite ?value_of in Hd; discriminate.
Qed.

End Facts.
End DiscoveryFacts.

(** * The claims *)

Import Scenario.

(** ** The per-branch loop and its report *)

(** C1.  Once [updateRepository] has entered its per-branch loop, a branch
    whose update fails does not end the loop: the branches checked out
    are the whole selection, in its order, whatever failed on the way; the
    names the loop records are those of the branches whose update returned
    an error; and for a selection a, b, c in which only b fails, the
    repository is reported as partial, with 2 succeeded and b as the one
    failed branch. *)
Theorem C1_failed_branch_does_not_abort_the_loop
        {H : Host} (cfg : Config) (repository : string) (w w1 : World)
        (selection : list string) :
  Current.entersLoop cfg repository w = Some (selection, w1) ->
  let run := Current.updateRepository cfg repository w in
  let results := Current.branchResults repository selection w1 in
  checkouts repository (trace run) = selection
  /\ value (Current.updateBranches repository selection [] w1)
     = Spec.failedNames selection results
  /\ (forall a b c e,
         selection = [a; b; c] -> results = [None; Some e; None] ->
         outcomes (trace run) = [Partial 2 [b]]).
Proof.
  intros Hin run results. split; [|split].
  - exact (CurrentFacts.entersLoop_checkouts cfg _ _ _ _ Hin).
  - apply (CurrentFacts.updateBranches_value repository selection [] w1).
  - intros a b c e Hsel Hres. unfold run.
    rewrite (CurrentFacts.entersLoop_outcomes cfg _ _ _ _ Hin).
    fold results. rewrite Hres, Hsel. reflexivity.
Qed.

Lemma C1_witness :
  @Current.entersLoop (scripted abc) allBranchesConfig "./one" ""%string
  = Some (["a"; "b"; "c"], ""%string)
  /\ outcomes (trace (@Current.updateRepository (scripted abc) allBranchesConfig
                        "./one" ""%string))
     = [Partial 2 ["b"]].
Proof.
  split; [reflexivity|].
  refine (proj2 (proj2 (@C1_failed_branch_does_not_abort_the_loop
            (scripted abc) allBranchesConfig "./one" ""%string ""%string
            ["a"; "b"; "c"] _)) "a" "b" "c" (HostError 1) _ _); reflexivity.
Defined.

(** C2.  A repository whose loop was entered had a non-empty selection,
    and its report is exactly the aggregate of the per-branch results:
    failed when every selected branch failed, partial with the number of
    branches that succeeded and the names of those that failed when some
    but not all failed, success with the number of branches when none
    failed. *)
Theorem C2_report_aggregates_the_branch_results
        {H : Host} (cfg : Config) (repository : string) (w w1 : World)
        (selection : list string) :
  Current.entersLoop cfg repository w = Some (selection, w1) ->
  let shown := outcomes (trace (Current.updateRepository cfg repository w)) in
  let results := Current.branchResults repository selection w1 in
  selection <> [] /\ length results = length selection
  /\ shown = [Spec.aggregate selection results]
  /\ (forallb isSome results = true -> shown = [Failed])
  /\ (forallb isSome results = false -> existsb isSome results = true ->
      shown = [Partial (length (filter (fun r => negb (isSome r)) results))
                       (Spec.failedNames selection results)])
  /\ (existsb isSome results = false -> shown = [Success (length selection)]).
Proof.
  intros Hin shown results.
  assert (Hne : selection <> [])
    by exact (proj1 (CurrentFacts.entersLoop_run cfg _ _ _ _ Hin)).
  assert (Hlen : length results = length selection)
    by apply CurrentFacts.branchResults_length.
  assert (Hshown : shown = [Spec.aggregate selection results])
    by exact (CurrentFacts.entersLoop_outcomes cfg _ _ _ _ Hin).
  repeat split; try assumption; rewrite Hshown; unfold Spec.aggregate.
  - intros ->. reflexivity.
  - intros -> ->. reflexivity.
  - intros Hex. rewrite Hex.
    destruct results as [|r rs]; [destruct selection; [congruence|discriminate]|].
    simpl in Hex. apply orb_false_iff in Hex as [Hr _].
    simpl. now rewrite Hr.
Qed.

Lemma C2_witness :
  @Current.entersLoop (scripted hopeless) allBranchesConfig "./one" ""%string
  = Some (["main"; "dev"], ""%string)
  /\ outcomes (trace (@Current.updateRepository (scripted hopeless)
                        allBranchesConfig "./one" ""%string))
     = [Failed].
Proof.
  split; [reflexivity|].
  refine (proj1 (proj2 (proj2 (proj2 (@C2_report_aggregates_the_branch_results
            (scripted hopeless) allBranchesConfig "./one" ""%string ""%string
            ["main"; "dev"] _)))) _); reflexivity.
Defined.

(** ** The run over all repositories *)

(** C3.  When discovery has succeeded and the threshold check is passed
    (ten repositories or fewer, or the prompt answered with yes), [RunE]
    starts [updateRepository] for every discovered repository, in
    discovery order, whatever the earlier ones did, as its loop does from
    any state of the world; and it returns no error, whatever the
    repositories returned. *)
Theorem C3_every_repository_is_attempted
        {H : Host} (cfg : Config) (w w1 : World) (repositories : list string) :
  Current.discovered cfg w = Some (repositories, w1) ->
  length repositories <= Current.warnThreshold
  \/ fst (hostConfirm (length repositories) w1) = (true, None) ->
  let run := Current.RunE cfg w in
  value run = None
  /\ started (trace run) = "Finding repositories"%string :: repositories
  /\ forall w', started (trace (Current.updateAll cfg repositories w')) = repositories.
Proof.
  intros Hfound Hpassed run.
  destruct (CurrentFacts.discovered_run cfg w w1 repositories Hfound)
    as (before & Hbefore & Erun).
  destruct (CurrentFacts.runRepositories_passed cfg repositories w1 Hpassed)
    as [w2 E].
  cbv zeta in Erun. unfold run. rewrite Erun, E, !value_of, !trace_of.
  split; [reflexivity|]. split.
  - rewrite !started_app, Hbefore,
      (CurrentFacts.updateAll_started cfg repositories w2).
    now destruct (Nat.ltb _ _).
  - intros w'. apply CurrentFacts.updateAll_started.
Qed.

Lemma C3_witness :
  length ["./one"; "./two"; "./three"] <= Current.warnThreshold
  /\ let run := @Current.RunE (scripted abc) (explicitConfig ["a"]) ""%string in
     outcomes (trace run) = [Success 1; Failed; Success 1]
     /\ value run = None
     /\ started (trace run)
        = ["Finding repositories"; "./one"; "./two"; "./three"]%string.
Proof.
  assert (Hfew : length ["./one"; "./two"; "./three"] <= Current.warnThreshold)
    by (unfold Current.warnThreshold; simpl; lia).
  split; [exact Hfew|].
  split; [reflexivity|].
  pose proof (@C3_every_repository_is_attempted (scripted abc) (explicitConfig ["a"])
                ""%string ""%string ["./one"; "./two"; "./three"]
                eq_refl (or_introl Hfew)) as Hrun.
  cbv zeta in Hrun. split; apply Hrun.
Defined.

(** ** The dirty working tree *)

(** C6.  In a run of [updateRepository], [git stash] is executed only
    when the status query succeeded with non-empty output and stashing is
    enabled; a repository whose status output is empty is never stashed;
    and a dirty repository with stashing disabled is shown as skipped,
    the status query being the only subprocess run for it: no fetch, no
    checkout, no pull. *)
Theorem C6_stash_only_when_dirty_and_allowed
        {H : Host} (cfg : Config) (repository : string) (w : World) :
  let sp := hostSpinnerStart repository w in
  let st := hostExec (statusCmd repository) (snd sp) in
  let run := Current.updateRepository cfg repository w in
  (In (Exec (stashCmd repository)) (trace run) ->
   snd (fst st) = None /\ fst (fst st) <> ""%string /\ stashChanges cfg = true)
  /\ (fst (fst st) = ""%string -> executions (stashCmd repository) (trace run) = 0)
  /\ (fst sp = None -> snd (fst st) = None -> fst (fst st) <> ""%string ->
      stashChanges cfg = false ->
      run = (Some errStashNotAllowed,
             [SpinnerStart repository; Exec (statusCmd repository); VizInfo "SKIPPED"],
             snd st)
      /\ outcomes (trace run) = [Skipped Dirty]
      /\ commands (trace run) = [statusCmd repository]).
Proof.
  intros sp st run.
  assert (Honly : In (Exec (stashCmd repository)) (trace run) ->
                  snd (fst st) = None /\ fst (fst st) <> ""%string
                  /\ stashChanges cfg = true).
  { intros Hin.
    apply CurrentFacts.stash_only_from_stashIfDirty in Hin as [_ Hin].
    now apply CurrentFacts.stashIfDirty_stash_iff in Hin. }
  split; [exact Honly|]. split.
  - intros Hclean.
    destruct (executions (stashCmd repository) (trace run)) eqn:E; [reflexivity|].
    assert (Hin : In (Exec (stashCmd repository)) (trace run))
      by (apply executions_In; lia).
    apply Honly in Hin as (_ & C & _). contradiction.
  - intros Hsp Hst Hdirty Hoff.
    assert (Erun : run = (Some errStashNotAllowed,
                          [SpinnerStart repository; Exec (statusCmd repository);
                           VizInfo "SKIPPED"], snd st)).
    { unfold run. rewrite CurrentFacts.updateRepository_run. cbv zeta.
      fold sp. rewrite Hsp. rewrite CurrentFacts.stashIfDirty_run. cbv zeta.
      fold st. rewrite Hst, Hoff.
      destruct (Nat.eqb_spec (String.length (fst (fst st))) 0) as [E|E];
        [apply CurrentFacts.length_zero_iff in E; contradiction|].
      reflexivity. }
    split; [exact Erun|]. rewrite Erun. split; reflexivity.
Qed.

Lemma C6_witness :
  let run := @Current.updateRepository (scripted dirty) allBranchesConfig
               "./one" ""%string in
  stashChanges allBranchesConfig = false
  /\ outcomes (trace run) = [Skipped Dirty]
  /\ commands (trace run) = [statusCmd "./one"].
Proof.
  split; [reflexivity|].
  refine (proj2 (proj2 (proj2 (@C6_stash_only_when_dirty_and_allowed
            (scripted dirty) allBranchesConfig "./one" ""%string)) _ _ _ _));
    try reflexivity.
  discriminate.
Defined.

(** ** One branch *)

(** C8.  For every branch name, in both generations of the code,
    [updateBranch] runs the checkout first; when the checkout fails its
    error is returned and the checkout is the only subprocess that was
    run; the pull runs only after a checkout that succeeded, in the world
    the checkout left, and its result is what is returned. *)
Theorem C8_checkout_failure_skips_the_pull
        {H : Host} (repo branch : string) (flag : bool) (w : World) :
  let co := hostExec (checkoutCmd repo branch) w in
  let pl := hostExec (pullCmd repo) (snd co) in
  let expected :=
    match snd (fst co) with
    | Some code =>
        (Some (HostError code), [Exec (checkoutCmd repo branch)], snd co)
    | None =>
        (liftErr (snd (fst pl)),
         [Exec (checkoutCmd repo branch); Exec (pullCmd repo)], snd pl)
    end in
  let current := Current.updateBranch repo branch w in
  let legacy := Legacy.updateBranch (Legacy.mkRepository repo flag) branch w in
  current = expected
  /\ (fst (value legacy), trace legacy, after legacy) = expected
  /\ (forall code, snd (fst co) = Some code ->
      value current = Some (HostError code)
      /\ commands (trace current) = [checkoutCmd repo branch]
      /\ fst (value legacy) = Some (HostError code)
      /\ commands (trace legacy) = [checkoutCmd repo branch])
  /\ (snd (fst co) = None ->
      commands (trace current) = [checkoutCmd repo branch; pullCmd repo]
      /\ commands (trace legacy) = [checkoutCmd repo branch; pullCmd repo]).
Proof.
  intros co pl expected current legacy.
  assert (Ec : current = expected) by apply CurrentFacts.updateBranch_run.
  assert (El : (fst (value legacy), trace legacy, after legacy) = expected).
  { unfold legacy. rewrite LegacyFacts.method_updateBranch_run. cbv zeta. simpl Legacy.path.
    fold co. unfold expected. destruct (snd (fst co)); reflexivity. }
  split; [exact Ec|]. split; [exact El|].
  assert (Et : trace legacy = trace expected /\ fst (value legacy) = value expected).
  { rewrite <- El. split; reflexivity. }
  destruct Et as [Et Ev]. rewrite Ec, Et, Ev. unfold expected. split.
  - intros code ->. repeat split; reflexivity.
  - intros ->. split; reflexivity.
Qed.

Lemma C8_witness :
  let run := @Current.updateBranch (scripted hopeless) "./one" "dev" ""%string in
  value run = Some (HostError 1)
  /\ commands (trace run) = [checkoutCmd "./one" "dev"].
Proof.
  pose proof (proj1 (proj2 (proj2 (@C8_checkout_failure_skips_the_pull
                (scripted hopeless) "./one" "dev" false ""%string)))
                1 eq_refl) as (Hv & Hc & _).
  split; [exact Hv | exact Hc].
Defined.

(** ** The [remoteUpdated] memo of [repository.go] *)

(** C7, as the code has it: two calls of [updateRemote] in succession on a
    fresh [repository] run [git fetch --all] twice, whatever the first
    one returned; the memo the claim relies on is read but never set. *)
Theorem C7_two_calls_fetch_twice
        {H : Host} (dir : string) (w : World) :
  let twice :=
    Legacy.calls [Legacy.CallUpdateRemote; Legacy.CallUpdateRemote]
                 (Legacy.newRepository dir) w in
  trace twice = [Exec (fetchCmd dir); Exec (fetchCmd dir)]
  /\ executions (fetchCmd dir) (trace twice) = 2.
Proof.
  cbv zeta.
  assert (E : trace (Legacy.calls [Legacy.CallUpdateRemote; Legacy.CallUpdateRemote]
                       (Legacy.newRepository dir) w)
              = [Exec (fetchCmd dir); Exec (fetchCmd dir)]).
  { rewrite !LegacyFacts.calls_step. cbv zeta. rewrite !trace_of.
    rewrite !LegacyFacts.call_updateRemote_trace by reflexivity. reflexivity. }
  rewrite E. split; [reflexivity|].
  unfold executions. simpl. rewrite Cmd_eqb_refl. reflexivity.
Qed.

(** C9.  [newRepository] sets [remoteUpdated] to false, and whatever
    sequence of methods is then called on the struct, the field is still
    false afterwards: an [updateRemote] on it runs [git fetch --all]. *)
Theorem C9_remoteUpdated_is_never_set
        {H : Host} (dir : string) (cs : list Legacy.Call) (w w' : World) :
  Legacy.remoteUpdated (Legacy.newRepository dir) = false
  /\ let r := value (Legacy.calls cs (Legacy.newRepository dir) w) in
     Legacy.remoteUpdated r = false
     /\ trace (Legacy.updateRemote r w') = [Exec (fetchCmd dir)].
Proof.
  split; [reflexivity|]. cbv zeta.
  rewrite LegacyFacts.calls_keep. split; [reflexivity|].
  rewrite LegacyFacts.updateRemote_run. reflexivity.
Qed.

(** ** Listing and selection *)

(** C5, as stated, fails on a line with a tab in it: the line contains
    whitespace, yet the listing loop keeps it. *)
Lemma C5_counterexample :
  ~ Spec.discardsExactly Spec.noise
      (Split (unlines [tabbed; "main"]) newline)
      (Current.collectBranches allBranchesConfig (unlines [tabbed; "main"])).
Proof.
  intros Hclaim.
  assert (Hin : In tabbed (Split (unlines [tabbed; "main"]) newline))
    by (left; reflexivity).
  apply (Hclaim tabbed Hin).
  - left; reflexivity.
  - do 4 right. reflexivity.
Qed.

(** C5, amended.  In all-branches mode the list [fetchBranchesToUpdate]
    builds from a listing is the listing's lines, in order, without
    exactly those that are empty, begin with refs/, heads/ or origin/, or
    contain a space character; the lines refs/heads/main, origin/main,
    two spaces and main come down to main alone. *)
Theorem C5_listing_filter
        (root : string) (names : list string) (stash : bool) (branches : string) :
  let kept := Current.collectBranches (mkConfig root names true stash) branches in
  kept = Current.filtered branches
  /\ Spec.discardsExactly Spec.noiseSpace (Split branches newline) kept
  /\ (forall line, Current.skipped line = true <-> Spec.noiseSpace line)
  /\ Current.collectBranches (mkConfig root names true stash)
       (unlines ["refs/heads/main"; "origin/main"; "  "; "main"]) = ["main"].
Proof.
  intros kept.
  assert (E : kept = Current.filtered branches)
    by (apply SelectionFacts.collectBranches_all; reflexivity).
  split; [exact E|]. split; [|split].
  - rewrite E. apply CurrentFacts.filtered_discards.
  - apply CurrentFacts.skipped_iff.
  - rewrite SelectionFacts.collectBranches_all by reflexivity. reflexivity.
Qed.

(** C4, as stated, fails when a name is requested twice: the selection
    then holds the branch twice, which the subset of the filtered list
    does not. *)
Lemma C4_counterexample :
  Current.collectBranches (explicitConfig ["main"; "main"])
                          (unlines ["main"; "feature-x"])
  <> Spec.explicitSelection (Current.filtered (unlines ["main"; "feature-x"]))
                            ["main"; "main"].
Proof. vm_compute. discriminate. Qed.

(** C4, amended.  In explicit mode, after a fetch and a listing that
    succeeded, the selection lists the filtered branches in the
    repository's order, each once per occurrence of its name among the
    requested names; with pairwise distinct requested names that is the
    subset of the filtered list whose names are requested.  A requested
    name that is not a branch of the repository adds nothing and is no
    error, and an empty selection is returned as [errNoBranch], never as
    an empty list. *)
Theorem C4_explicit_selection
        {H : Host} (cfg : Config) (repo : string) (w : World) :
  allBranches cfg = false ->
  snd (fst (hostExec (fetchCmd repo) w)) = None ->
  let li := hostExec (listCmd repo) (snd (hostExec (fetchCmd repo) w)) in
  snd (fst li) = None ->
  let branches := Current.filtered (fst (fst li)) in
  let selection := flat_map (Current.copies cfg) branches in
  Current.collectBranches cfg (fst (fst li)) = selection
  /\ (NoDup (requestedBranches cfg) ->
      selection = Spec.explicitSelection branches (requestedBranches cfg))
  /\ (forall name,
         count_occ string_dec selection name
         = count_occ string_dec branches name
           * count_occ string_dec (requestedBranches cfg) name)
  /\ (forall name, ~ In name branches -> ~ In name selection)
  /\ value (Current.fetchBranchesToUpdate cfg repo w)
     = match selection with
       | [] => Err errNoBranch
       | _ => Ok selection
       end.
Proof.
  intros Hexplicit Hfetch li Hlist branches selection.
  assert (E : Current.collectBranches cfg (fst (fst li)) = selection)
    by (apply SelectionFacts.collectBranches_explicit; exact Hexplicit).
  assert (Hcount : forall name,
             count_occ string_dec selection name
             = count_occ string_dec branches name
               * count_occ string_dec (requestedBranches cfg) name)
    by (intros name; apply SelectionFacts.count_occ_flat_map_copies).
  split; [exact E|]. split; [|split; [exact Hcount|split]].
  - intros Hnd. rewrite <- E.
    apply SelectionFacts.explicit_NoDup; assumption.
  - intros name Hout. apply (count_occ_not_In string_dec).
    rewrite Hcount. apply (count_occ_not_In string_dec) in Hout.
    now rewrite Hout.
  - rewrite CurrentFacts.fetchBranchesToUpdate_run. cbv zeta.
    rewrite Hfetch. fold li. rewrite Hlist, E, value_of.
    now destruct selection.
Qed.

Lemma C4_witness :
  value (@Current.fetchBranchesToUpdate (scripted twoBranches)
           (explicitConfig ["main"; "master"]) "./one" ""%string)
  = Ok ["main"].
Proof.
  exact (proj2 (proj2 (proj2 (proj2 (@C4_explicit_selection (scripted twoBranches)
           (explicitConfig ["main"; "master"]) "./one" ""%string
           eq_refl eq_refl eq_refl))))).
Defined.



(** ** The earlier generation, for comparison *)

(** [Update] in [repository.go] returns at the first branch that fails:
    with a, b, c and a failing b, c is never checked out. *)
Example Legacy_Update_stops_at_b :
  let run := @Legacy.Update (scripted abc) (Legacy.newRepository "./one")
               ["a"; "b"; "c"] ""%string in
  fst (value run) = Some (HostError 1)
  /\ checkouts "./one" (trace run) = ["a"; "b"].
Proof. split; reflexivity. Qed.

(** The loop of the earlier [RunE] ends at the first repository that
    returns an error: the third one is never started. *)
Example Legacy_updateAll_stops_at_two :
  let run := @Legacy.updateAll (scripted abc) (explicitConfig ["a"])
               ["./one"; "./two"; "./three"] ""%string in
  value run = Some (HostError 128)
  /\ printed (trace run) = ["./one"; "./two"].
Proof. split; reflexivity. Qed.

(** [GetAllBranches] drops the empty lines of a listing and nothing else. *)
Example Legacy_listing_keeps_the_rest :
  Legacy.collectBranches (unlines ["refs/heads/main"; "origin/main"; "  "; "main"])
  = ["refs/heads/main"; "origin/main"; "  "; "main"].
Proof. reflexivity. Qed.

(** With all branches asked for, the earlier [updateRepository] fetches
    three times: once itself, once in [GetAllBranches], once in [Update]. *)
Example Legacy_updateRepository_fetches_thrice :
  executions (fetchCmd "./one")
    (trace (@Legacy.updateRepository (scripted twoBranches) allBranchesConfig
              "./one" ""%string)) = 3.
Proof. reflexivity. Qed.

(** * Further properties *)

Import Trouble.

(** ** Discovery and the confirmation prompt *)

(** X1.  When [find] succeeds and prints, for a list of working-tree
    roots, each root followed by /.git on a line of its own,
    [findRepositories] returns exactly these roots, in the order printed:
    the metadata directory is stripped from every line and the empty
    field after the last newline is not taken for a repository. *)
Theorem X1_findRepositories_returns_the_roots
        {H : Host} (rootDir : string) (w : World) (roots : list string) :
  let dir := if (rootDir =? "")%string then "."%string else rootDir in
  let fo := hostExec (findCmd dir) w in
  snd (fst fo) = None ->
  fst (fst fo) = foundAt roots ->
  (forall root, In root roots -> singleLine root = true) ->
  value (Current.findRepositories rootDir w) = Ok roots
  /\ collectRepositories (foundAt roots) = roots.
Proof.
  intros dir fo Hok Hout Hlines.
  assert (E : collectRepositories (foundAt roots) = roots)
    by now apply DiscoveryFacts.collectRepositories_foundAt.
  split; [|exact E].
  rewrite DiscoveryFacts.findRepositories_run. cbv zeta.
  fold dir. fold fo. rewrite Hok, Hout, E.
  now destruct roots.
Qed.

Lemma X1_witness :
  value (@Current.findRepositories (scripted abc) "" ""%string)
  = Ok ["./one"; "./two"; "./three"]%string.
Proof.
  refine (proj1 (@X1_findRepositories_returns_the_roots (scripted abc) "" ""%string
                   ["./one"; "./two"; "./three"]%string eq_refl eq_refl _)).
  intros root [<-|[<-|[<-|[]]]]; reflexivity.
Defined.

(** X2.  In a run of [RunE] that gets through discovery, the
    confirmation prompt is shown once, asking about the number found,
    when more than ten repositories were found, and not at all
    otherwise. *)
Theorem X2_prompt_only_above_the_threshold
        {H : Host} (cfg : Config) (w w1 : World) (repositories : list string) :
  Current.discovered cfg w = Some (repositories, w1) ->
  prompts (trace (Current.RunE cfg w))
  = if Nat.ltb 10 (length repositories) then [length repositories] else [].
Proof.
  intros Hfound.
  destruct (DiscoveryFacts.discovered_before cfg w w1 repositories Hfound)
    as (before & _ & Hp & _ & _ & E).
  rewrite E, trace_of. unfold prompts. rewrite flat_map_app.
  fold (prompts before). rewrite Hp.
  apply DiscoveryFacts.runRepositories_prompts.
Qed.

Lemma X2_witness :
  prompts (trace (@Current.RunE (faulty crowded noFaults) allBranchesConfig
                    ""%string)) = [11].
Proof.
  exact (@X2_prompt_only_above_the_threshold (faulty crowded noFaults)
           allBranchesConfig ""%string ""%string eleven eq_refl).
Defined.

(** X3.  When more than ten repositories were found and the prompt is
    not answered with yes, [RunE] starts no repository and runs no git
    command; it returns the prompt's error if the prompt failed and no
    error if it was declined. *)
Theorem X3_refused_prompt_runs_nothing
        {H : Host} (cfg : Config) (w w1 : World) (repositories : list string) :
  Current.discovered cfg w = Some (repositories, w1) ->
  10 < length repositories ->
  fst (hostConfirm (length repositories) w1) <> (true, None) ->
  let run := Current.RunE cfg w in
  value run = liftErr (snd (fst (hostConfirm (length repositories) w1)))
  /\ started (trace run) = ["Finding repositories"%string]
  /\ outcomes (trace run) = []
  /\ (forall c, In c (commands (trace run)) -> cmdName c = "find"%string).
Proof.
  intros Hfound Hmany Hno run.
  destruct (DiscoveryFacts.discovered_before cfg w w1 repositories Hfound)
    as (before & Hs & _ & Ho & Hc & E).
  unfold run. rewrite E.
  rewrite (DiscoveryFacts.runRepositories_refused cfg repositories w1 Hmany Hno).
  rewrite !value_of, !trace_of. split; [reflexivity|].
  split; [|split].
  - rewrite started_app, Hs. reflexivity.
  - rewrite outcomes_app, Ho. reflexivity.
  - intros c Hin. unfold commands in Hin. rewrite flat_map_app in Hin.
    apply in_app_or in Hin as [Hin|Hin]; [now apply Hc | destruct Hin].
Qed.

Lemma X3_witness :
  let run := @Current.RunE (faulty crowded (mkFaults false false true false []))
               allBranchesConfig ""%string in
  value run = None /\ started (trace run) = ["Finding repositories"%string].
Proof.
  pose proof (@X3_refused_prompt_runs_nothing
                (faulty crowded (mkFaults false false true false []))
                allBranchesConfig ""%string ""%string eleven eq_refl) as Hrun.
  cbv zeta in Hrun.
  assert (Hmany : 10 < length eleven) by (simpl; lia).
  assert (Hno : fst (@hostConfirm (faulty crowded (mkFaults false false true false []))
                       (length eleven) ""%string) <> (true, None))
    by discriminate.
  destruct (Hrun Hmany Hno) as (Hv & Hs & _). split; [exact Hv | exact Hs].
Defined.

(** X4.  When the user lookup, the first spinner or [find] fails, [RunE]
    returns an error, and it has started no repository, shown no prompt
    and run no subprocess other than [find]. *)
Theorem X4_failed_discovery_aborts_the_run
        {H : Host} (cfg : Config) (w : World) :
  Current.discovered cfg w = None ->
  let run := Current.RunE cfg w in
  value run <> None
  /\ (forall text, In text (started (trace run)) ->
      text = "Finding repositories"%string)
  /\ prompts (trace run) = []
  /\ outcomes (trace run) = []
  /\ (forall c, In c (commands (trace run)) -> cmdName c = "find"%string).
Proof.
  intros Hnone run.
  destruct (DiscoveryFacts.undiscovered_run cfg w Hnone)
    as (e & t & Hv & Ht & Hs & Hp & Ho & Hc).
  unfold run. rewrite Hv, Ht. repeat split; try assumption. discriminate.
Qed.

Lemma X4_witness :
  let run := @Current.RunE (faulty abc (mkFaults false true false false []))
               allBranchesConfig ""%string in
  value run <> None /\ prompts (trace run) = [].
Proof.
  pose proof (@X4_failed_discovery_aborts_the_run
                (faulty abc (mkFaults false true false false []))
                allBranchesConfig ""%string eq_refl) as Hrun.
  cbv zeta in Hrun. destruct Hrun as (Hv & _ & Hp & _). split; [exact Hv | exact Hp].
Defined.

(** X5.  [expandPathWithTilde] asks for the current user before it looks
    at the path: when that lookup fails it fails, whatever the path is.
    When the lookup succeeds, a path that does not begin with a tilde
    comes back unchanged, the path ~ becomes the home directory, and
    ~/rest becomes the home directory joined with rest. *)
Theorem X5_expandPathWithTilde_cases {H : Host} (w : World) :
  let uc := hostUserCurrent w in
  match snd (fst uc) with
  | Some code =>
      forall rootDir, value (expandPathWithTilde rootDir w) = Err (HostError code)
  | None =>
      (forall rootDir, HasPrefix rootDir "~" = false ->
                       value (expandPathWithTilde rootDir w) = Ok rootDir)
      /\ value (expandPathWithTilde "~" w) = Ok (fst (fst uc))
      /\ (forall rest,
             value (expandPathWithTilde ("~/" ++ rest) w)
             = Ok (hostJoin (fst (fst uc)) rest))
  end.
Proof.
  cbv zeta. destruct (snd (fst (hostUserCurrent w))) as [code|] eqn:Euc.
  - intros rootDir. rewrite DiscoveryFacts.expandPathWithTilde_run. cbv zeta.
    now rewrite value_of, Euc.
  - split; [|split].
    + intros rootDir Hplain. rewrite DiscoveryFacts.expandPathWithTilde_run.
      cbv zeta. rewrite value_of, Euc.
      destruct rootDir as [|c rest]; [reflexivity|].
      simpl in Hplain. rewrite andb_true_r in Hplain.
      assert (Hne : (String c rest =? "~")%string = false).
      { apply String.eqb_neq. intros E. injection E as -> _.
        discriminate. }
      rewrite Hne. simpl HasPrefix. now rewrite Hplain.
    + rewrite DiscoveryFacts.expandPathWithTilde_run. cbv zeta.
      now rewrite value_of, Euc.
    + intros rest. rewrite DiscoveryFacts.expandPathWithTilde_run. cbv zeta.
      rewrite value_of, Euc.
      assert (Hne : (("~/" ++ rest) =? "~")%string = false)
        by (apply String.eqb_neq; discriminate).
      rewrite Hne, HasPrefix_app.
      change (String.length ("~/" ++ rest) - 2) with (String.length rest - 0).
      rewrite Nat.sub_0_r.
      change (substring 2 (String.length rest) ("~/" ++ rest))
        with (substring 0 (String.length rest) rest).
      now rewrite substring_all.
Qed.

(** ** One repository, current generation *)

(** X6.  A run of [updateRepository] whose spinner started shows exactly
    one outcome.  It returns no error exactly when it entered the
    per-branch loop; otherwise the error it returns tells the outcome:
    [errStashNotAllowed] goes with skipped (dirty), [errNoBranch] with
    skipped (no branch), an error of a subprocess with failed. *)
Theorem X6_one_outcome_per_repository
        {H : Host} (cfg : Config) (repository : string) (w : World) :
  fst (hostSpinnerStart repository w) = None ->
  let run := Current.updateRepository cfg repository w in
  length (outcomes (trace run)) = 1
  /\ (value run = None <-> Current.entersLoop cfg repository w <> None)
  /\ match value run with
     | None => True
     | Some errStashNotAllowed => outcomes (trace run) = [Skipped Dirty]
     | Some errNoBranch => outcomes (trace run) = [Skipped NoBranch]
     | Some (HostError _) => outcomes (trace run) = [Failed]
     end.
Proof.
  intros Hsp run. unfold run, Current.entersLoop.
  rewrite CurrentFacts.updateRepository_run, spinnerStart_run. cbv zeta.
  rewrite Hsp, !value_of, !after_of. cbn [liftErr option_map].
  set (d := Current.stashIfDirty cfg repository (snd (hostSpinnerStart repository w))).
  pose proof (CurrentFacts.stashIfDirty_quiet cfg repository
                (snd (hostSpinnerStart repository w))) as [Od _]. fold d in Od.
  pose proof (CurrentFacts.stashIfDirty_errors cfg repository
                (snd (hostSpinnerStart repository w))) as Ed. fold d in Ed.
  destruct (value d) as [e|].
  { rewrite !trace_of, !value_of.
    change (SpinnerStart repository :: ?t) with ([SpinnerStart repository] ++ t).
    rewrite !outcomes_app, Od.
    destruct (Ed e eq_refl) as [->|[code ->]]; simpl;
      (split; [reflexivity|]); (split; [|reflexivity]);
      split; [discriminate | congruence | discriminate | congruence]. }
  set (f := Current.fetchBranchesToUpdate cfg repository (after d)).
  pose proof (CurrentFacts.fetchBranchesToUpdate_quiet cfg repository (after d))
    as [Of _]. fold f in Of.
  pose proof (CurrentFacts.fetchBranchesToUpdate_errors cfg repository (after d))
    as Ef. fold f in Ef.
  destruct (value f) as [sel|e].
  - rewrite !trace_of, !value_of.
    change (SpinnerStart repository :: ?t) with ([SpinnerStart repository] ++ t).
    rewrite !outcomes_app, Od, Of, CurrentFacts.updateBranches_outcomes.
    destruct (CurrentFacts.report_run repository sel
                (value (Current.updateBranches repository sel [] (after f)))
                (after (Current.updateBranches repository sel [] (after f))))
      as (ev & -> & Hev).
    rewrite trace_of. simpl. rewrite app_nil_r.
    split; [|split; [split; [discriminate | reflexivity] | exact I]].
    destruct ev; simpl in *; try congruence; try reflexivity.
    destruct (prefixText =? "SKIPPED")%string; [reflexivity|].
    destruct (prefixText =? " NO-BRANCH ")%string; [reflexivity | congruence].
  - rewrite !trace_of, !value_of.
    change (SpinnerStart repository :: ?t) with ([SpinnerStart repository] ++ t).
    rewrite !outcomes_app, Od, Of.
    destruct (Ef e eq_refl) as [->|[code ->]]; simpl;
      (split; [reflexivity|]); (split; [|reflexivity]);
      split; [discriminate | congruence | discriminate | congruence].
Qed.

Lemma X6_witness :
  let run := @Current.updateRepository (scripted dirty) allBranchesConfig
               "./one" ""%string in
  value run = Some errStashNotAllowed /\ length (outcomes (trace run)) = 1.
Proof.
  split; [reflexivity|].
  exact (proj1 (@X6_one_outcome_per_repository (scripted dirty) allBranchesConfig
                  "./one" ""%string eq_refl)).
Defined.

(** X7.  For a dirty repository with stashing enabled, [updateRepository]
    runs the status query, then [git stash], and no second stash later.
    When the stash succeeds the next subprocess is the fetch; when it
    fails nothing else is run, the stash error is returned and the
    repository is shown as failed. *)
Theorem X7_stash_once_then_fetch
        {H : Host} (cfg : Config) (repository : string) (w : World) :
  let sp := hostSpinnerStart repository w in
  let st := hostExec (statusCmd repository) (snd sp) in
  let sh := hostExec (stashCmd repository) (snd st) in
  let run := Current.updateRepository cfg repository w in
  fst sp = None -> snd (fst st) = None -> fst (fst st) <> ""%string ->
  stashChanges cfg = true ->
  exists rest,
    commands (trace run) = statusCmd repository :: stashCmd repository :: rest
    /\ ~ In (stashCmd repository) rest
    /\ (snd (fst sh) = None -> exists more, rest = fetchCmd repository :: more)
    /\ (forall code, snd (fst sh) = Some code ->
        rest = [] /\ value run = Some (HostError code)
        /\ outcomes (trace run) = [Failed]).
Proof.
  intros sp st sh run Hsp Hst Hdirty Hon.
  assert (Ed : Current.stashIfDirty cfg repository (snd sp)
               = (liftErr (snd (fst sh)),
                  [Exec (statusCmd repository); Exec (stashCmd repository)],
                  snd sh)).
  { rewrite CurrentFacts.stashIfDirty_run. cbv zeta. fold st. rewrite Hst, Hon.
    destruct (Nat.eqb_spec (String.length (fst (fst st))) 0) as [E|E];
      [apply CurrentFacts.length_zero_iff in E; contradiction | reflexivity]. }
  destruct (snd (fst sh)) as [code|] eqn:Esh.
  - exists []. unfold run. rewrite CurrentFacts.updateRepository_run. cbv zeta.
    fold sp. rewrite Hsp, Ed, !value_of, !trace_of. cbn [liftErr option_map].
    split; [reflexivity|]. split; [intros []|]. split; [discriminate|].
    intros code' E; injection E as <-. repeat split; reflexivity.
  - destruct (CurrentFacts.updateRepository_after_stash cfg repository w Hsp)
      as (later & Et & Hno & more & Hmore).
    { fold sp. now rewrite Ed. }
    fold sp in Et. rewrite Ed, trace_of in Et.
    exists (commands later). fold run in Et. rewrite Et.
    split; [reflexivity|]. split; [|split].
    + intros Hin. now apply CurrentFacts.commands_In in Hin.
    + intros _. now exists more.
    + discriminate.
Qed.

Lemma X7_witness :
  exists rest,
    commands (trace (@Current.updateRepository (scripted dirty)
                       (mkConfig "." [] true true) "./one" ""%string))
    = statusCmd "./one" :: stashCmd "./one" :: fetchCmd "./one" :: rest.
Proof.
  destruct (@X7_stash_once_then_fetch (scripted dirty) (mkConfig "." [] true true)
              "./one" ""%string eq_refl eq_refl) as (rest & Hc & _ & Hok & _);
    [discriminate | reflexivity |].
  destruct (Hok eq_refl) as [more ->]. now exists more.
Defined.

(** X8.  A run of [updateRepository] that enters the per-branch loop has
    run, in this order: the status query, the stash if there was one,
    one fetch, one listing, and then only checkouts of selected branches
    and pulls. *)
Theorem X8_one_fetch_one_listing_then_branches
        {H : Host} (cfg : Config) (repository : string) (w w1 : World)
        (selection : list string) :
  Current.entersLoop cfg repository w = Some (selection, w1) ->
  exists pre perBranch,
    (pre = [statusCmd repository]
     \/ pre = [statusCmd repository; stashCmd repository])
    /\ commands (trace (Current.updateRepository cfg repository w))
       = pre ++ [fetchCmd repository; listCmd repository] ++ perBranch
    /\ (forall c, In c perBranch ->
        c = pullCmd repository
        \/ exists branch, In branch selection /\ c = checkoutCmd repository branch).
Proof.
  intros Hin.
  destruct (CurrentFacts.entersLoop_commands cfg repository w w1 selection Hin)
    as (pre & Hpre & E).
  exists pre, (commands (trace (Current.updateBranches repository selection [] w1))).
  split; [exact Hpre|]. split; [exact E|].
  intros c. apply CurrentFacts.updateBranches_commands.
Qed.

Lemma X8_witness :
  @Current.entersLoop (scripted twoBranches) (explicitConfig ["main"])
    "./one" ""%string = Some (["main"], ""%string)
  /\ exists pre perBranch,
       commands (trace (@Current.updateRepository (scripted twoBranches)
                          (explicitConfig ["main"]) "./one" ""%string))
       = pre ++ [fetchCmd "./one"; listCmd "./one"] ++ perBranch.
Proof.
  split; [reflexivity|].
  destruct (@X8_one_fetch_one_listing_then_branches (scripted twoBranches)
              (explicitConfig ["main"]) "./one" ""%string ""%string ["main"]
              eq_refl) as (pre & perBranch & _ & E & _).
  exists pre, perBranch. exact E.
Defined.

(** ** Selection, current generation *)

(** X9.  Whatever the mode, every branch [fetchBranchesToUpdate] selects
    is a line of the listing that the loop does not skip: it is not
    empty, has none of the three prefixes and holds no space; in explicit
    mode it is moreover one of the requested names.  Nothing is selected
    that the listing does not show. *)
Theorem X9_selected_branches_come_from_the_listing
        (cfg : Config) (branches name : string) :
  In name (Current.collectBranches cfg branches) ->
  In name (Split branches newline)
  /\ name <> ""%string
  /\ HasPrefix name "refs/" = false /\ HasPrefix name "heads/" = false
  /\ HasPrefix name "origin/" = false /\ Contains name " " = false
  /\ (allBranches cfg = false -> In name (requestedBranches cfg)).
Proof.
  intros Hin.
  apply SelectionFacts.collectBranches_In in Hin as (Hline & Hskip & Hreq).
  unfold Current.skipped in Hskip.
  repeat (apply orb_false_iff in Hskip as [Hskip ?]).
  apply String.eqb_neq in Hskip. now repeat split.
Qed.

Lemma X9_witness :
  In "main"%string (Split (listing twoBranches) newline)
  /\ In "main"%string (requestedBranches (explicitConfig ["main"; "master"])).
Proof.
  assert (Hin : In "main"%string
                  (Current.collectBranches (explicitConfig ["main"; "master"])
                     (listing twoBranches))) by (left; reflexivity).
  destruct (X9_selected_branches_come_from_the_listing
              (explicitConfig ["main"; "master"]) (listing twoBranches) "main" Hin)
    as (Hline & _ & _ & _ & _ & _ & Hreq).
  split; [exact Hline | exact (Hreq eq_refl)].
Defined.

(** X10.  The order in which the branch names are requested has no
    effect: two configurations in the same mode whose requested names are
    permutations of each other select the same list from every listing. *)
Theorem X10_requested_order_is_irrelevant
        (cfg cfg' : Config) (branches : string) :
  allBranches cfg = allBranches cfg' ->
  Permutation (requestedBranches cfg) (requestedBranches cfg') ->
  Current.collectBranches cfg branches = Current.collectBranches cfg' branches.
Proof.
  intros Hmode Hperm.
  rewrite !SelectionFacts.collectBranches_flat_map.
  apply flat_map_ext; intros line. unfold Current.contribution.
  rewrite Hmode, (SelectionFacts.copies_Permutation cfg cfg' line Hperm).
  reflexivity.
Qed.

Lemma X10_witness :
  Current.collectBranches (explicitConfig ["feature-x"; "main"]) (listing twoBranches)
  = Current.collectBranches (explicitConfig ["main"; "feature-x"]) (listing twoBranches).
Proof.
  apply X10_requested_order_is_irrelevant; [reflexivity|].
  apply perm_swap.
Defined.

(** X11.  [fetchBranchesToUpdate] lists only after a fetch that
    succeeded: when the fetch fails, its error is returned and the fetch
    is the only subprocess run.  [errNoBranch] is returned exactly when
    both subprocesses succeeded and the loop selected nothing, and a list
    that is returned is never empty. *)
Theorem X11_fetchBranchesToUpdate_results
        {H : Host} (cfg : Config) (repo : string) (w : World) :
  let fe := hostExec (fetchCmd repo) w in
  let li := hostExec (listCmd repo) (snd fe) in
  let run := Current.fetchBranchesToUpdate cfg repo w in
  (forall code, snd (fst fe) = Some code ->
   run = (Err (HostError code), [Exec (fetchCmd repo)], snd fe))
  /\ (value run = Err errNoBranch <->
      snd (fst fe) = None /\ snd (fst li) = None
      /\ Current.collectBranches cfg (fst (fst li)) = [])
  /\ (forall selection, value run = Ok selection ->
      selection <> []
      /\ selection = Current.collectBranches cfg (fst (fst li))).
Proof.
  intros fe li run. unfold run.
  rewrite CurrentFacts.fetchBranchesToUpdate_run. cbv zeta. fold fe. fold li.
  destruct (snd (fst fe)) as [code|].
  { split; [intros c E; now injection E as <-|].
    rewrite value_of. split; [split; [discriminate | intros [C _]; discriminate]|].
    discriminate. }
  split; [discriminate|].
  destruct (snd (fst li)) as [code|]; rewrite value_of.
  { split; [split; [discriminate | intros (_ & C & _); discriminate]|].
    discriminate. }
  destruct (Current.collectBranches cfg (fst (fst li))) as [|b bs].
  - split; [now split | discriminate].
  - split; [split; [discriminate | intros (_ & _ & C); discriminate]|].
    intros selection E; injection E as <-. split; [discriminate | reflexivity].
Qed.

(** ** The earlier generation *)

(** X12.  [GetAllBranches] fetches first and lists only after a fetch
    that succeeded.  From a listing that succeeded it returns all lines
    that are not empty, in order and otherwise as printed; when there is
    none it returns the empty list without an error. *)
Theorem X12_GetAllBranches_keeps_nonempty_lines
        {H : Host} (dir : string) (w : World) :
  let fe := hostExec (fetchCmd dir) w in
  let li := hostExec (plainListCmd dir) (snd fe) in
  let run := Legacy.GetAllBranches (Legacy.newRepository dir) w in
  (forall code, snd (fst fe) = Some code ->
   fst (value run) = Err (HostError code)
   /\ commands (trace run) = [fetchCmd dir])
  /\ (snd (fst fe) = None -> snd (fst li) = None ->
      fst (value run)
      = Ok (filter (fun line => negb (line =? "")%string)
                   (Split (fst (fst li)) newline))
      /\ commands (trace run) = [fetchCmd dir; plainListCmd dir]
      /\ (fst (fst li) = ""%string -> fst (value run) = Ok [])).
Proof.
  intros fe li run. unfold run.
  rewrite LegacyFacts.GetAllBranches_run by reflexivity. cbv zeta.
  change (Legacy.path (Legacy.newRepository dir)) with dir. fold fe. fold li.
  split.
  - intros code ->. now rewrite value_of, trace_of.
  - intros -> ->. rewrite value_of, trace_of. cbn [fst].
    rewrite LegacyFacts.collectBranches_filter.
    repeat split. intros ->. reflexivity.
Qed.









(** ** Whole runs, current generation *)

(** X18.  On a host whose spinner always starts, the loop of [RunE]
    shows exactly one outcome for every repository it is given: as many
    outcomes as repositories, whatever happened in each. *)
Theorem X18_one_outcome_for_every_repository
        {H : Host} (cfg : Config) (repositories : list string) (w : World) :
  (forall text w', fst (hostSpinnerStart text w') = None) ->
  length (outcomes (trace (Current.updateAll cfg repositories w)))
  = length repositories.
Proof. apply CurrentFacts.updateAll_outcome_count. Qed.

Lemma X18_witness :
  length (outcomes (trace (@Current.updateAll (scripted abc) (explicitConfig ["a"])
                             ["./one"; "./two"; "./three"] ""%string))) = 3.
Proof.
  apply (@X18_one_outcome_for_every_repository (scripted abc) (explicitConfig ["a"])
           ["./one"; "./two"; "./three"] ""%string).
  intros text w'. reflexivity.
Defined.

(** X19.  Every subprocess the loop of [RunE] runs is a git command, run
    in the directory of one of the repositories it was given, and its
    verb is one of status, stash, fetch, branch, checkout and pull:
    nothing is run outside the discovered repositories, and nothing that
    deletes or pushes. *)
Theorem X19_only_git_in_the_given_repositories
        {H : Host} (cfg : Config) (repositories : list string) (w : World) :
  Forall
    (fun c =>
       cmdName c = "git"%string /\ In (cmdDir c) repositories
       /\ exists verb more,
            cmdArgs c = verb :: more
            /\ In verb ["status"; "stash"; "fetch"; "branch"; "checkout"; "pull"]%string)
    (commands (trace (Current.updateAll cfg repositories w))).
Proof.
  apply Forall_forall. intros c. apply CurrentFacts.updateAll_commands.
Qed.
